(** * SpotyPod2: reconciliation of an expected track list with downloaded files

    A shallow embedding of [spotypod.py].  Python [str] values are Rocq
    [string]s, [pathlib.Path] values are lists of path components, and the
    methods of [SpotyPod] that touch the file system or print are functions in
    a small state-and-exception monad over an explicit [World].

    The world answers the calls the program makes: which paths exist, what a
    directory lists, what [EasyID3] finds in a file or raises, what rows the
    CSV reader yields.  Creating directories and writing text files are taken
    to succeed; the exceptions the program itself raises or catches are
    modelled.  The external download tool is a parameter of the workflow. *)

From Stdlib Require Import String Ascii List Bool Arith ZArith Lia.
Import ListNotations.
Open Scope string_scope.

(** ** Python strings *)

Module Str.

(** [str.lower()], on ASCII text: the letters A-Z are folded, every other
    character is left alone. *)
Definition lower_char (c : ascii) : ascii :=
  let n := nat_of_ascii c in
  if ((65 <=? n)%nat && (n <=? 90)%nat)%bool then ascii_of_nat (n + 32) else c.

Fixpoint lower (s : string) : string :=
  match s with
  | EmptyString => EmptyString
  | String c r => String (lower_char c) (lower r)
  end.

(** [b.startswith(a)] *)
Fixpoint startswith (a b : string) : bool :=
  match a, b with
  | EmptyString, _ => true
  | String _ _, EmptyString => false
  | String x a', String y b' => Ascii.eqb x y && startswith a' b'
  end.

(** [a in b] for two strings: [a] occurs in [b] at some offset. *)
Fixpoint contains (a b : string) : bool :=
  startswith a b ||
  match b with
  | EmptyString => false
  | String _ b' => contains a b'
  end.

(** [s.endswith(suf)] *)
Definition endswith (suf s : string) : bool :=
  (String.length suf <=? String.length s)%nat &&
  String.eqb (substring (String.length s - String.length suf)
                        (String.length suf) s) suf.

(** [s.rfind(".")], [None] standing for -1. *)
Fixpoint rfind_dot (s : string) : option nat :=
  match s with
  | EmptyString => None
  | String c r =>
      match rfind_dot r with
      | Some i => Some (S i)
      | None => if Ascii.eqb c "."%char then Some 0 else None
      end
  end.

(** Truthiness of a string: [x or y]. *)
Definition nonempty (s : string) : bool :=
  match s with EmptyString => false | String _ _ => true end.

Definition or_else (x y : string) : string :=
  if nonempty x then x else y.




End Str.

(** ** Paths ([pathlib.PurePosixPath]) *)

Module Path.

(** A path is its tuple of [parts]; an absolute path starts with the part
    ["/"]. *)
Definition t := list string.

Definition eq_dec : forall p q : t, {p = q} + {p <> q} :=
  list_eq_dec string_dec.

Definition eqb (p q : t) : bool := if eq_dec p q then true else false.

(** [p / name] *)
Definition div (p : t) (name : string) : t := (p ++ [name])%list.

(** [p.name] *)
Definition name (p : t) : string := last p "".

(** [p.stem]: the name without its last suffix; a leading or trailing dot
    does not start a suffix. *)
Definition stem (p : t) : string :=
  let n := name p in
  match Str.rfind_dot n with
  | Some i =>
      if ((0 <? i)%nat && (i <? String.length n - 1)%nat)%bool then substring 0 i n else n
  | None => n
  end.

Fixpoint join (l : list string) : string :=
  match l with
  | [] => ""
  | [x] => x
  | x :: r => x ++ "/" ++ join r
  end.

(** [str(p)] *)
Definition str (p : t) : string :=
  match p with
  | [] => "."
  | x :: r => if String.eqb x "/" then "/" ++ join r else join p
  end.

Definition is_absolute (p : t) : bool :=
  match p with
  | x :: _ => String.eqb x "/"
  | [] => false
  end.

(** [p.absolute()] relative to the working directory [cwd]. *)
Definition absolute (cwd p : t) : t :=
  if is_absolute p then p else (cwd ++ p)%list.

End Path.

(** ** Data *)

(** [class PlaylistItem] *)
Record PlaylistItem := {
  track_name : string;
  artist : string;
  album : string
}.

(** The dictionary returned by [get_file_metadata]: keys ['title'],
    ['artist'], ['album']. *)
Record Metadata := {
  title : string;
  tag_artist : string;
  tag_album : string
}.

Definition empty_metadata : Metadata :=
  {| title := ""; tag_artist := ""; tag_album := "" |}.

(** A raised exception: its class and its message. *)
Record exn := {
  exn_class : string;
  exn_msg : string
}.

Definition ValueError (msg : string) : exn :=
  {| exn_class := "ValueError"; exn_msg := msg |}.
Definition FileNotFoundError (msg : string) : exn :=
  {| exn_class := "FileNotFoundError"; exn_msg := msg |}.
Definition IndexError (msg : string) : exn :=
  {| exn_class := "IndexError"; exn_msg := msg |}.

(** What an opened [EasyID3] object holds: for each key a list of values. *)
Definition Tags := list (string * list string).

(** A row of [csv.DictReader]. *)
Definition Row := list (string * string).

(** [subprocess.CompletedProcess] *)
Record CompletedProcess := {
  returncode : Z;
  proc_stdout : string;
  proc_stderr : string
}.

(** One line printed by the program, by the [print] statement that prints
    it. *)
Inductive event :=
| ev_downloading (playlist_name : string)          (* "Downloading playlist: ..." *)
| ev_output_directory (playlist_dir : Path.t)      (* "Output directory: ..." *)
| ev_running (cmd : list string)                   (* "Running: ..." *)
| ev_spotdl_stderr (s : string)                    (* "SpotDL stderr: ..." *)
| ev_spotdl_output (s : string)                    (* "SpotDL output: ..." *)
| ev_spotdl_not_found                              (* "Warning: spotdl not found. ..." *)
| ev_metadata_warning (file_path : Path.t) (e : exn)
                                  (* "Warning: Could not read metadata from ...: ..." *)
| ev_generating (m3u_path : Path.t)                (* "Generating M3U playlist: ..." *)
| ev_found (n : nat)                               (* "Found ... downloaded files" *)
| ev_expected (n : nat)                            (* "Expected ... tracks from CSV" *)
| ev_title_mismatch (csv_value file_value : string)
                                  (* "  Metadata mismatch - CSV: '...' vs File: '...'" *)
| ev_artist_mismatch (csv_value file_value : string)
                                  (* "  Artist mismatch - CSV: '...' vs File: '...'" *)
| ev_not_found_warning (item : PlaylistItem)
                                  (* "  Warning: Could not find downloaded file for: ..." *)
| ev_saved (m3u_path : Path.t)                     (* "M3U playlist saved to: ..." *)
| ev_processing (csv_path : Path.t)                (* "Processing playlist from: ..." *)
| ev_loaded (playlist_name : string) (n : nat)     (* "Loaded playlist '...' with ... tracks" *)
| ev_csv_not_found (csv_path : Path.t)             (* "Error: CSV file not found: ..." *)
| ev_success (m3u_path : Path.t)                   (* "Success! M3U playlist created: ..." *)
| ev_import_hint (m3u_path : Path.t)               (* "You can now import '...' into ..." *)
| ev_error (e : exn)                               (* "Error: ..." *)
| ev_traceback (e : exn).                          (* traceback.print_exc() *)

(** ** The world the program runs in *)

Record World := {
  cwd : Path.t;
  (** [os.path.exists] / [Path.exists] *)
  exists_ : Path.t -> bool;
  (** the names in a directory, in the order the file system yields them *)
  listing : Path.t -> list string;
  (** the outcome of [EasyID3(str(path))], by the string passed *)
  id3 : string -> exn + Tags;
  (** the rows [csv.DictReader] yields for a file, when it can be opened *)
  csv : Path.t -> option (list Row);
  (** the text files written by the program *)
  files : Path.t -> option string;
  (** what was printed, oldest line first *)
  stdout : list event
}.

Definition set_stdout (w : World) (l : list event) : World :=
  {| cwd := cwd w; exists_ := exists_ w; listing := listing w; id3 := id3 w;
     csv := csv w; files := files w; stdout := l |}.

Definition set_files (w : World) (f : Path.t -> option string) : World :=
  {| cwd := cwd w; exists_ := exists_ w; listing := listing w; id3 := id3 w;
     csv := csv w; files := f; stdout := stdout w |}.

Definition set_exists (w : World) (f : Path.t -> bool) : World :=
  {| cwd := cwd w; exists_ := f; listing := listing w; id3 := id3 w;
     csv := csv w; files := files w; stdout := stdout w |}.

Definition upd {A} (f : Path.t -> A) (p : Path.t) (v : A) : Path.t -> A :=
  fun q => if Path.eq_dec q p then v else f q.

(** ** State and exceptions *)

Definition M (A : Type) : Type := World -> (exn + A) * World.

Definition ret {A} (a : A) : M A := fun w => (inr a, w).

Definition bind {A B} (m : M A) (k : A -> M B) : M B :=
  fun w =>
    match m w with
    | (inr a, w') => k a w'
    | (inl e, w') => (inl e, w')
    end.

Definition raise {A} (e : exn) : M A := fun w => (inl e, w).

(** [try: body  except Exception as e: handler e] *)
Definition try_except {A} (body : M A) (handler : exn -> M A) : M A :=
  fun w =>
    match body w with
    | (inl e, w') => handler e w'
    | r => r
    end.

Notation "x <- m ;; k" := (bind m (fun x => k))
  (at level 61, m at next level, right associativity).
Notation "m ;;; k" := (bind m (fun _ => k))
  (at level 61, right associativity).

Definition print (e : event) : M unit :=
  fun w => (inr tt, set_stdout w (stdout w ++ [e])%list).

(** [for x in xs: body x] *)
Fixpoint for_each {A} (xs : list A) (body : A -> M unit) : M unit :=
  match xs with
  | [] => ret tt
  | x :: r => body x ;;; for_each r body
  end.

(** [open(path, 'w')]: the file is created or truncated. *)
Definition open_w (p : Path.t) : M unit :=
  fun w => (inr tt, set_exists (set_files w (upd (files w) p (Some "")))
                               (upd (exists_ w) p true)).

(** [f.write(s)] on the file opened at [p]. *)
Definition write (p : Path.t) (s : string) : M unit :=
  fun w =>
    let old := match files w p with Some c => c | None => "" end in
    (inr tt, set_files w (upd (files w) p (Some (old ++ s)))).

(** [p.mkdir(exist_ok=True)] *)
Definition mkdir (p : Path.t) : M unit :=
  fun w => (inr tt, set_exists w (upd (exists_ w) p true)).

(** [p.unlink(missing_ok=True)] *)
Definition unlink (p : Path.t) : M unit :=
  fun w => (inr tt, set_exists (set_files w (upd (files w) p None))
                               (upd (exists_ w) p false)).

(** [p.exists()] *)
Definition path_exists (p : Path.t) : M bool :=
  fun w => (inr (exists_ w p), w).

(** [list(d.glob("*.mp3"))]: the names that end in ".mp3", compared case
    by case as on a POSIX file system, in the order of the listing. *)
Definition glob_mp3 (d : Path.t) : M (list Path.t) :=
  fun w => (inr (map (Path.div d) (filter (Str.endswith ".mp3") (listing w d))), w).

(** [EasyID3(s)] *)
Definition EasyID3 (s : string) : M Tags :=
  fun w => (match id3 w s with inl e => inl e | inr t => inr t end, w).

(** [d.get(key, default)] on a dictionary kept as an association list. *)
Fixpoint dict_get {V} (d : list (string * V)) (key : string) (default : V) : V :=
  match d with
  | [] => default
  | (k, v) :: r => if String.eqb k key then v else dict_get r key default
  end.

(** [l[0]] *)
Definition index0 (l : list string) : M string :=
  match l with
  | x :: _ => ret x
  | [] => raise (IndexError "list index out of range")
  end.

(** ** [SpotyPod] *)

Record SpotyPod := {
  output_dir : Path.t
}.

(** The [try] block of [get_file_metadata]. *)
Definition read_tags (file_path : Path.t) : M Metadata :=
  audio <- EasyID3 (Path.str file_path) ;;
  t <- index0 (dict_get audio "title" [""]) ;;
  a <- index0 (dict_get audio "artist" [""]) ;;
  al <- index0 (dict_get audio "album" [""]) ;;
  ret {| title := t; tag_artist := a; tag_album := al |}.

(** [SpotyPod.get_file_metadata] *)
Definition get_file_metadata (file_path : Path.t) : M Metadata :=
  try_except
    (read_tags file_path)
    (fun e =>
       print (ev_metadata_warning file_path e) ;;;
       ret empty_metadata).

(** The three tests of the inner loop of [generate_m3u_playlist]. *)
Definition title_match (item : PlaylistItem) (metadata : Metadata) : bool :=
  Str.contains (Str.lower (track_name item)) (Str.lower (title metadata)) ||
  Str.contains (Str.lower (title metadata)) (Str.lower (track_name item)).

Definition artist_match (item : PlaylistItem) (metadata : Metadata) : bool :=
  Str.contains (Str.lower (artist item)) (Str.lower (tag_artist metadata)) ||
  Str.contains (Str.lower (tag_artist metadata)) (Str.lower (artist item)).

Definition filename_match (item : PlaylistItem) (file_path : Path.t) : bool :=
  Str.contains (Str.lower (track_name item)) (Str.lower (Path.stem file_path)) &&
  Str.contains (Str.lower (artist item)) (Str.lower (Path.stem file_path)).

(** The condition of the [if] that ends the inner loop. *)
Definition is_match (item : PlaylistItem) (metadata : Metadata)
    (file_path : Path.t) : bool :=
  (title_match item metadata && artist_match item metadata) ||
  filename_match item file_path.

(** The inner loop: [for file_path in downloaded_files: ... break]. *)
Fixpoint find_matched_file (item : PlaylistItem) (downloaded_files : list Path.t)
    : M (option Path.t) :=
  match downloaded_files with
  | [] => ret None
  | file_path :: rest =>
      metadata <- get_file_metadata file_path ;;
      if is_match item metadata file_path
      then ret (Some file_path)
      else find_matched_file item rest
  end.

(** The newline character of the f-strings. *)
Definition nl : string := String "010"%char "".

(** The two [print] statements under [# Check for mismatches]. *)
Definition title_differs (item : PlaylistItem) (metadata : Metadata) : bool :=
  Str.nonempty (title metadata) &&
  negb (String.eqb (Str.lower (title metadata)) (Str.lower (track_name item))).

Definition artist_differs (item : PlaylistItem) (metadata : Metadata) : bool :=
  Str.nonempty (tag_artist metadata) &&
  negb (String.eqb (Str.lower (tag_artist metadata)) (Str.lower (artist item))).

(** [f"#EXTINF:-1,{artist} - {title}\n"] *)
Definition extinf (artist title : string) : string :=
  "#EXTINF:-1," ++ artist ++ " - " ++ title ++ nl.

(** [matched_file.absolute()] *)
Definition absolute (p : Path.t) : M Path.t :=
  fun w => (inr (Path.absolute (cwd w) p), w).

(** The body of [for item in playlist_items], writing to the file opened at
    [m3u_path]. *)
Definition reconcile_item (m3u_path : Path.t) (downloaded_files : list Path.t)
    (item : PlaylistItem) : M unit :=
  matched_file <- find_matched_file item downloaded_files ;;
  match matched_file with
  | Some matched_file =>
      metadata <- get_file_metadata matched_file ;;
      let title' := Str.or_else (title metadata) (track_name item) in
      let artist' := Str.or_else (tag_artist metadata) (artist item) in
      write m3u_path (extinf artist' title') ;;;
      abs <- absolute matched_file ;;
      write m3u_path (Path.str abs ++ nl) ;;;
      (if title_differs item metadata
       then print (ev_title_mismatch (track_name item) (title metadata))
       else ret tt) ;;;
      (if artist_differs item metadata
       then print (ev_artist_mismatch (artist item) (tag_artist metadata))
       else ret tt)
  | None => print (ev_not_found_warning item)
  end.

(** [SpotyPod.generate_m3u_playlist] *)
Definition generate_m3u_playlist (self : SpotyPod) (playlist_name : string)
    (playlist_dir : Path.t) (playlist_items : list PlaylistItem) : M Path.t :=
  let m3u_path := Path.div (output_dir self) (playlist_name ++ ".m3u") in
  downloaded_files <- glob_mp3 playlist_dir ;;
  print (ev_generating m3u_path) ;;;
  print (ev_found (List.length downloaded_files)) ;;;
  print (ev_expected (List.length playlist_items)) ;;;
  open_w m3u_path ;;;
  write m3u_path ("#EXTM3U" ++ nl) ;;;
  for_each playlist_items (reconcile_item m3u_path downloaded_files) ;;;
  print (ev_saved m3u_path) ;;;
  ret m3u_path.

(** [open(csv_path, 'r')] followed by [csv.DictReader]. *)
Definition read_rows (csv_path : Path.t) : M (list Row) :=
  fun w =>
    match csv w csv_path with
    | Some rows => (inr rows, w)
    | None => (inl (FileNotFoundError (Path.str csv_path)), w)
    end.

(** The loop of [read_exportify_csv] over the rows. *)
Fixpoint playlist_items_of (rows : list Row) : list PlaylistItem :=
  match rows with
  | [] => []
  | row :: rest =>
      let track_name := dict_get row "Track Name" (dict_get row "track_name" "") in
      let artist := dict_get row "Artist Name(s)" (dict_get row "artist_name" "") in
      let album := dict_get row "Album Name" (dict_get row "album_name" "") in
      if Str.nonempty track_name && Str.nonempty artist
      then {| track_name := track_name; artist := artist; album := album |}
             :: playlist_items_of rest
      else playlist_items_of rest
  end.

(** [SpotyPod.read_exportify_csv] *)
Definition read_exportify_csv (csv_path : Path.t)
    : M (string * list PlaylistItem) :=
  let playlist_name := Path.stem csv_path in
  rows <- read_rows csv_path ;;
  ret (playlist_name, playlist_items_of rows).

(** [try: body  except cls: handler]: other classes pass through. *)
Definition try_except_class {A} (cls : string) (body : M A) (handler : M A)
    : M A :=
  fun w =>
    match body w with
    | (inl e, w') =>
        if String.eqb (exn_class e) cls then handler w' else (inl e, w')
    | r => r
    end.



Section Workflow.

(** [subprocess.run(cmd, capture_output=True, text=True)]: the external
    download tool, which may do anything to the world, or be missing. *)
Variable subprocess_run : list string -> M CompletedProcess.

(** [SpotyPod.download_playlist] *)
Definition download_playlist (self : SpotyPod) (playlist_name : string)
    (playlist_items : list PlaylistItem) : M Path.t :=
  let playlist_dir := Path.div (output_dir self) playlist_name in
  mkdir playlist_dir ;;;
  print (ev_downloading playlist_name) ;;;
  print (ev_output_directory playlist_dir) ;;;
  let queries_file := Path.div playlist_dir "queries.txt" in
  open_w queries_file ;;;
  for_each playlist_items
    (fun item =>
       write queries_file (artist item ++ " - " ++ track_name item ++ nl)) ;;;
  try_except_class "FileNotFoundError"
    (let cmd := ["spotdl"; "download"; Path.str queries_file;
                 "--output"; Path.str playlist_dir; "--format"; "mp3"] in
     print (ev_running cmd) ;;;
     result <- subprocess_run cmd ;;
     (if negb (Z.eqb (returncode result) 0)
      then print (ev_spotdl_stderr (proc_stderr result))
      else ret tt) ;;;
     print (ev_spotdl_output (proc_stdout result)))
    (print ev_spotdl_not_found) ;;;
  unlink queries_file ;;;
  ret playlist_dir.

(** [SpotyPod.process_playlist] *)
Definition process_playlist (self : SpotyPod) (csv_path : Path.t)
    (download : bool) : M Path.t :=
  print (ev_processing csv_path) ;;;
  loaded <- read_exportify_csv csv_path ;;
  let playlist_name := fst loaded in
  let playlist_items := snd loaded in
  print (ev_loaded playlist_name (List.length playlist_items)) ;;;
  playlist_dir <-
    (if download
     then download_playlist self playlist_name playlist_items
     else
       let playlist_dir := Path.div (output_dir self) playlist_name in
       found <- path_exists playlist_dir ;;
       if negb found
       then raise (ValueError ("Playlist directory not found: "
                                 ++ Path.str playlist_dir))
       else ret playlist_dir) ;;
  generate_m3u_playlist self playlist_name playlist_dir playlist_items.


End Workflow.

(** ** What the reconciliation computes, as functions of the world *)

(** The outcome of [read_tags], from the answer of [EasyID3]. *)
Definition tag_result (w : World) (file_path : Path.t) : exn + Metadata :=
  match id3 w (Path.str file_path) with
  | inl e => inl e
  | inr audio =>
      match dict_get audio "title" [""], dict_get audio "artist" [""],
            dict_get audio "album" [""] with
      | t :: _, a :: _, al :: _ =>
          inr {| title := t; tag_artist := a; tag_album := al |}
      | _, _, _ => inl (IndexError "list index out of range")
      end
  end.

(** The metadata of a candidate, as the matcher sees it. *)
Definition tags_of (w : World) (file_path : Path.t) : Metadata :=
  match tag_result w file_path with
  | inr metadata => metadata
  | inl _ => empty_metadata
  end.

Definition tag_warnings (w : World) (file_path : Path.t) : list event :=
  match tag_result w file_path with
  | inr _ => []
  | inl e => [ev_metadata_warning file_path e]
  end.

(** The match predicate on a candidate file of the world. *)
Definition candidate_matches (w : World) (item : PlaylistItem)
    (file_path : Path.t) : bool :=
  is_match item (tags_of w file_path) file_path.

Definition selected (w : World) (item : PlaylistItem)
    (downloaded_files : list Path.t) : option Path.t :=
  find (candidate_matches w item) downloaded_files.

(** The prefix of a list up to and including the first element that
    satisfies [p]. *)
Fixpoint take_until {A} (p : A -> bool) (l : list A) : list A :=
  match l with
  | [] => []
  | x :: r => x :: (if p x then [] else take_until p r)
  end.

(** The candidates whose tags one scan reads, in the order it reads them. *)
Definition scanned (w : World) (item : PlaylistItem)
    (downloaded_files : list Path.t) : list Path.t :=
  take_until (candidate_matches w item) downloaded_files.

Definition scan_events (w : World) (item : PlaylistItem)
    (downloaded_files : list Path.t) : list event :=
  flat_map (tag_warnings w) (scanned w item downloaded_files).

(** The display values of a matched pair. *)
Definition display_title (item : PlaylistItem) (metadata : Metadata) : string :=
  Str.or_else (title metadata) (track_name item).

Definition display_artist (item : PlaylistItem) (metadata : Metadata) : string :=
  Str.or_else (tag_artist metadata) (artist item).

(** The two lines written for a matched pair. *)
Definition extinf_line (item : PlaylistItem) (metadata : Metadata) : string :=
  extinf (display_artist item metadata) (display_title item metadata).

Definition path_line (w : World) (file_path : Path.t) : string :=
  Path.str (Path.absolute (cwd w) file_path) ++ nl.

Definition entry (w : World) (pair : PlaylistItem * Path.t) : string :=
  extinf_line (fst pair) (tags_of w (snd pair)) ++ path_line w (snd pair).

Definition mismatch_events (item : PlaylistItem) (metadata : Metadata)
    : list event :=
  (if title_differs item metadata
   then [ev_title_mismatch (track_name item) (title metadata)] else []) ++
  (if artist_differs item metadata
   then [ev_artist_mismatch (artist item) (tag_artist metadata)] else []).

(** The matched pairs: every expected track that has a selected file, with
    that file, in the order of the track list. *)
Definition matched_pairs (w : World) (downloaded_files : list Path.t)
    (playlist_items : list PlaylistItem) : list (PlaylistItem * Path.t) :=
  flat_map
    (fun item =>
       match selected w item downloaded_files with
       | Some file_path => [(item, file_path)]
       | None => []
       end)
    playlist_items.

Fixpoint concat_str (l : list string) : string :=
  match l with
  | [] => ""
  | s :: r => s ++ concat_str r
  end.

Definition header : string := "#EXTM3U" ++ nl.

(** The playlist document for a track list and a candidate list. *)
Definition document (w : World) (downloaded_files : list Path.t)
    (playlist_items : list PlaylistItem) : string :=
  header ++ concat_str (map (entry w) (matched_pairs w downloaded_files playlist_items)).

(** What one pass of the outer loop writes. *)
Definition item_text (w : World) (downloaded_files : list Path.t)
    (item : PlaylistItem) : string :=
  match selected w item downloaded_files with
  | Some file_path => entry w (item, file_path)
  | None => ""
  end.

(** What one pass of the outer loop prints. *)
Definition item_events (w : World) (downloaded_files : list Path.t)
    (item : PlaylistItem) : list event :=
  scan_events w item downloaded_files ++
  match selected w item downloaded_files with
  | Some file_path =>
      tag_warnings w file_path ++ mismatch_events item (tags_of w file_path)
  | None => [ev_not_found_warning item]
  end.

(** The candidates of a playlist directory. *)
Definition candidates (w : World) (playlist_dir : Path.t) : list Path.t :=
  map (Path.div playlist_dir) (filter (Str.endswith ".mp3") (listing w playlist_dir)).

Definition m3u_path_of (self : SpotyPod) (playlist_name : string) : Path.t :=
  Path.div (output_dir self) (playlist_name ++ ".m3u").

(** What [generate_m3u_playlist] prints. *)
Definition generate_events (self : SpotyPod) (playlist_name : string)
    (playlist_dir : Path.t) (playlist_items : list PlaylistItem) (w : World)
    : list event :=
  ([ev_generating (m3u_path_of self playlist_name);
    ev_found (List.length (candidates w playlist_dir));
    ev_expected (List.length playlist_items)] ++
   flat_map (item_events w (candidates w playlist_dir)) playlist_items ++
   [ev_saved (m3u_path_of self playlist_name)])%list.

(** [w'] is [w] after [text] was appended to the file [p] and [evs] were
    printed; nothing else has changed. *)
Record effect (p : Path.t) (text : string) (evs : list event)
    (w w' : World) : Prop := {
  eff_cwd : cwd w' = cwd w;
  eff_exists : exists_ w' = exists_ w;
  eff_listing : listing w' = listing w;
  eff_id3 : id3 w' = id3 w;
  eff_csv : csv w' = csv w;
  eff_stdout : stdout w' = (stdout w ++ evs)%list;
  eff_file : forall c, files w p = Some c -> files w' p = Some (c ++ text);
  eff_others : forall q, q <> p -> files w' q = files w q
}.




(** ** The download stage, as functions of the track list *)

(** The directory of a playlist and the query file written into it. *)
Definition playlist_dir_of (self : SpotyPod) (playlist_name : string) : Path.t :=
  Path.div (output_dir self) playlist_name.

Definition queries_file_of (self : SpotyPod) (playlist_name : string) : Path.t :=
  Path.div (playlist_dir_of self playlist_name) "queries.txt".

(** The line of the query file for a track. *)
Definition query_line (item : PlaylistItem) : string :=
  artist item ++ " - " ++ track_name item ++ nl.

Definition queries_text (playlist_items : list PlaylistItem) : string :=
  concat_str (map query_line playlist_items).

(** The command line handed to [subprocess.run]. *)
Definition spotdl_cmd (self : SpotyPod) (playlist_name : string) : list string :=
  ["spotdl"; "download"; Path.str (queries_file_of self playlist_name);
   "--output"; Path.str (playlist_dir_of self playlist_name);
   "--format"; "mp3"].

(** What is printed once the tool has returned. *)
Definition spotdl_report (result : CompletedProcess) : list event :=
  ((if negb (Z.eqb (returncode result) 0)
    then [ev_spotdl_stderr (proc_stderr result)] else []) ++
   [ev_spotdl_output (proc_stdout result)])%list.

(** The entry of a track whose matched file has neither title nor artist
    tag: the values of the CSV row, and the path of the file. *)
Definition csv_entry (w : World) (file_path : Path.t) (item : PlaylistItem)
    : string :=
  extinf (artist item) (track_name item) ++ path_line w file_path.

(** The statements of [download_playlist] that come before the call of the
    tool, and the world they leave, in which the tool is started. *)
Definition prepare_download (self : SpotyPod) (playlist_name : string)
    (playlist_items : list PlaylistItem) : M unit :=
  let playlist_dir := Path.div (output_dir self) playlist_name in
  mkdir playlist_dir ;;;
  print (ev_downloading playlist_name) ;;;
  print (ev_output_directory playlist_dir) ;;;
  let queries_file := Path.div playlist_dir "queries.txt" in
  open_w queries_file ;;;
  for_each playlist_items
    (fun item =>
       write queries_file (artist item ++ " - " ++ track_name item ++ nl)) ;;;
  print (ev_running (spotdl_cmd self playlist_name)).

Definition world_at_spotdl (self : SpotyPod) (playlist_name : string)
    (playlist_items : list PlaylistItem) (w : World) : World :=
  snd (prepare_download self playlist_name playlist_items w).

(** The download tool is not installed: every attempt to start it raises
    [FileNotFoundError] and changes nothing. *)
Definition tool_absent (run : list string -> M CompletedProcess) : Prop :=
  forall cmd w, exists e,
    run cmd w = (inl e, w) /\ exn_class e = "FileNotFoundError".

(** ** Concrete tracks, files and worlds *)

Module Ex.

Definition yesterday : PlaylistItem :=
  {| track_name := "Yesterday"; artist := "The Beatles"; album := "Help!" |}.

Definition help : PlaylistItem :=
  {| track_name := "Help!"; artist := "The Beatles"; album := "Help!" |}.

Definition spotypod : SpotyPod := {| output_dir := ["output"] |}.

Definition playlist_dir : Path.t := ["output"; "mix"].

Definition m3u : Path.t := ["output"; "mix.m3u"].

Definition track01 : Path.t := ["output"; "mix"; "track01.mp3"].

Definition beatles_yesterday : Path.t :=
  ["output"; "mix"; "The Beatles - Yesterday.mp3"].

Definition no_header : exn :=
  {| exn_class := "ID3NoHeaderError"; exn_msg := "file doesn't start with an ID3 tag" |}.

(** A directory of four files; every tag read succeeds and finds no
    frames. *)
Definition untagged : World :=
  {| cwd := ["/"; "home"; "me"];
     exists_ := fun _ => true;
     listing := fun d =>
       if Path.eqb d playlist_dir
       then ["track01.mp3"; "The Beatles - Yesterday.mp3"; "notes.txt";
             "cover.flac"]
       else [];
     id3 := fun _ => inr [];
     csv := fun _ => None;
     files := fun p => if Path.eqb p m3u then Some header else None;
     stdout := [] |}.

(** The same directory; every tag read fails. *)
Definition unreadable : World :=
  {| cwd := cwd untagged; exists_ := exists_ untagged;
     listing := listing untagged;
     id3 := fun _ => inl no_header;
     csv := csv untagged; files := files untagged; stdout := [] |}.

(** A directory with a single, tagged file. *)
Definition tagged : World :=
  {| cwd := ["/"; "home"; "me"];
     exists_ := fun _ => true;
     listing := fun d => if Path.eqb d playlist_dir then ["track01.mp3"] else [];
     id3 := fun _ =>
       inr [("title", ["Yesterday / Help! (medley)"]); ("artist", ["Beatles"])];
     csv := fun _ => None;
     files := fun p => if Path.eqb p m3u then Some header else None;
     stdout := [] |}.

Definition mix_csv : Path.t := ["mix.csv"].


(** The CSV file is there, the playlist directory is not. *)
Definition no_directory : World :=
  {| cwd := ["/"; "home"; "me"];
     exists_ := fun p => Path.eqb p mix_csv;
     listing := fun _ => [];
     id3 := fun _ => inl no_header;
     csv := fun p =>
       if Path.eqb p mix_csv
       then Some [[("Track Name", "Yesterday");
                   ("Artist Name(s)", "The Beatles");
                   ("Album Name", "Help!")]]
       else None;
     files := fun _ => None;
     stdout := [] |}.

(** The download tool is not installed. *)
Definition spotdl_missing (cmd : list string) : M CompletedProcess :=
  raise (FileNotFoundError "spotdl").

End Ex.

Module Ex2.

(** A row whose Exportify title column is present and empty, beside a
    filled lower-case alias. *)
Definition shadowed_row : Row :=
  [("track_name", "Yesterday"); ("Track Name", "");
   ("Artist Name(s)", "The Beatles")].

(** Tags in which the artist key holds an empty list of values. *)
Definition no_artist_value : Tags :=
  [("title", ["Yesterday"]); ("artist", [])].

Definition half_tagged : World :=
  {| cwd := cwd Ex.untagged; exists_ := exists_ Ex.untagged;
     listing := listing Ex.untagged;
     id3 := fun _ => inr no_artist_value;
     csv := csv Ex.untagged; files := files Ex.untagged; stdout := [] |}.

(** A file named the way the query of the track "Yesterday" reads. *)
Definition query_named : Path.t :=
  ["output"; "mix"; "The Beatles - Yesterday.mp3"].


(** The CSV file and the playlist directory are both there. *)
Definition ready : World :=
  {| cwd := ["/"; "home"; "me"];
     exists_ := fun _ => true;
     listing := listing Ex.untagged;
     id3 := fun _ => inr [];
     csv := csv Ex.no_directory;
     files := fun _ => None;
     stdout := [] |}.

(** A directory without any file. *)
Definition empty_dir : World :=
  {| cwd := ["/"; "home"; "me"];
     exists_ := fun _ => true;
     listing := fun _ => [];
     id3 := fun _ => inl Ex.no_header;
     csv := fun _ => None;
     files := fun _ => None;
     stdout := [] |}.

(** A download tool that exits with status 1 and leaves the world alone. *)
Definition spotdl_failing (cmd : list string) : M CompletedProcess :=
  ret {| returncode := 1%Z; proc_stdout := ""; proc_stderr := "no results" |}.

(** A download tool that cannot be started for lack of permission. *)
Definition spotdl_denied (cmd : list string) : M CompletedProcess :=
  raise {| exn_class := "PermissionError"; exn_msg := "spotdl" |}.

End Ex2.

(** ** Facts about strings *)

Module StrFacts.

Lemma append_nil_r (s : string) : s ++ "" = s.
Proof.
  induction s as [|c s IH]; simpl; [reflexivity | now rewrite IH].
Qed.

Lemma append_assoc (a b c : string) : (a ++ b) ++ c = a ++ (b ++ c).
Proof.
  induction a as [|x a IH]; simpl; [reflexivity | now rewrite IH].
Qed.

Lemma length_append (a b : string) :
  String.length (a ++ b) = String.length a + String.length b.
Proof.
  induction a as [|x a IH]; simpl; [reflexivity | now rewrite IH].
Qed.

Lemma lower_empty : Str.lower "" = "".
Proof. reflexivity. Qed.



Lemma contains_empty (b : string) : Str.contains "" b = true.
Proof. destruct b; reflexivity. Qed.

Lemma substring_skip (p q : string) :
  substring (String.length p) (String.length q) (p ++ q) = q.
Proof.
  induction p as [|x p IH]; simpl.
  - induction q as [|y q IHq]; simpl; [reflexivity | now rewrite IHq].
  - exact IH.
Qed.

Lemma substring_split (n : nat) (s : string) :
  n <= String.length s ->
  exists p, s = p ++ substring n (String.length s - n) s.
Proof.
  revert s; induction n as [|n IH]; intros s Hn.
  - exists "". rewrite Nat.sub_0_r. simpl.
    clear Hn. induction s as [|y s IHs]; simpl; [reflexivity | now rewrite <- IHs].
  - destruct s as [|y s]; simpl in Hn; [lia |].
    destruct (IH s) as [p Hp]; [lia |].
    exists (String y p). simpl. now rewrite <- Hp.
Qed.

Lemma endswith_spec (suf s : string) :
  Str.endswith suf s = true <-> exists p, s = p ++ suf.
Proof.
  unfold Str.endswith. rewrite andb_true_iff, Nat.leb_le, String.eqb_eq. split.
  - intros [Hle Hsub].
    destruct (substring_split (String.length s - String.length suf) s) as [p Hp]; [lia |].
    exists p.
    replace (String.length s - (String.length s - String.length suf))
      with (String.length suf) in Hp by lia.
    now rewrite Hsub in Hp.
  - intros [p ->]. rewrite length_append. split; [lia |].
    replace (String.length p + String.length suf - String.length suf)
      with (String.length p) by lia.
    apply substring_skip.
Qed.

Lemma or_else_nonempty (x y : string) : x <> "" -> Str.or_else x y = x.
Proof. destruct x; [congruence | reflexivity]. Qed.

Lemma or_else_empty (y : string) : Str.or_else "" y = y.
Proof. reflexivity. Qed.

Lemma nonempty_spec (x : string) : Str.nonempty x = true <-> x <> "".
Proof. destruct x; simpl; split; congruence. Qed.

End StrFacts.

(** ** How the methods run *)

Lemma world_eta (w : World) : set_stdout w (stdout w) = w.
Proof. now destruct w. Qed.

Lemma upd_same {A} (f : Path.t -> A) (p : Path.t) (v : A) : upd f p v p = v.
Proof. unfold upd. destruct (Path.eq_dec p p); [reflexivity | contradiction]. Qed.

Lemma upd_other {A} (f : Path.t -> A) (p q : Path.t) (v : A) :
  q <> p -> upd f p v q = f q.
Proof. unfold upd. intros H. destruct (Path.eq_dec q p); [contradiction | reflexivity]. Qed.

Lemma read_tags_run (file_path : Path.t) (w : World) :
  read_tags file_path w = (tag_result w file_path, w).
Proof.
  unfold read_tags, bind, EasyID3, tag_result.
  destruct (id3 w (Path.str file_path)) as [e | audio]; [reflexivity |].
  destruct (dict_get audio "title" [""]) as [|t ?]; [reflexivity |].
  destruct (dict_get audio "artist" [""]) as [|a ?]; [reflexivity |].
  destruct (dict_get audio "album" [""]) as [|al ?]; reflexivity.
Qed.

(** [get_file_metadata] always returns: the tags that were read, or the
    empty metadata after one warning. *)
Lemma get_file_metadata_run (file_path : Path.t) (w : World) :
  get_file_metadata file_path w =
  (inr (tags_of w file_path),
   set_stdout w (stdout w ++ tag_warnings w file_path)).
Proof.
  unfold get_file_metadata, try_except. rewrite read_tags_run.
  unfold tags_of, tag_warnings.
  destruct (tag_result w file_path) as [e | metadata]; [reflexivity |].
  cbn. now rewrite app_nil_r, world_eta.
Qed.

Lemma scan_events_cons (w : World) (item : PlaylistItem) (file_path : Path.t)
    (rest : list Path.t) :
  scan_events w item (file_path :: rest) =
  (tag_warnings w file_path ++
   if candidate_matches w item file_path then [] else scan_events w item rest)%list.
Proof.
  unfold scan_events, scanned. cbn [take_until flat_map].
  now destruct (candidate_matches w item file_path).
Qed.

(** The inner loop returns the first candidate that matches and prints the
    warnings of the candidates it has read. *)
Lemma find_matched_file_run (item : PlaylistItem) (downloaded_files : list Path.t)
    (w : World) :
  find_matched_file item downloaded_files w =
  (inr (selected w item downloaded_files),
   set_stdout w (stdout w ++ scan_events w item downloaded_files)).
Proof.
  revert w. induction downloaded_files as [|file_path rest IH]; intros w.
  - cbn. now rewrite app_nil_r, world_eta.
  - cbn [find_matched_file]. unfold bind. rewrite get_file_metadata_run.
    rewrite scan_events_cons. unfold selected. cbn [find].
    change (is_match item (tags_of w file_path) file_path)
      with (candidate_matches w item file_path).
    destruct (candidate_matches w item file_path).
    + cbn. now rewrite app_nil_r.
    + rewrite IH. cbn. rewrite <- app_assoc. reflexivity.
Qed.

(** Nothing of what the reconciliation computes depends on what has been
    printed or written so far. *)
Section SameOracles.

Variables w w' : World.
Hypothesis Hid3 : id3 w' = id3 w.
Hypothesis Hcwd : cwd w' = cwd w.

Lemma tags_of_env (file_path : Path.t) : tags_of w' file_path = tags_of w file_path.
Proof. unfold tags_of, tag_result. now rewrite Hid3. Qed.

Lemma item_text_env (downloaded_files : list Path.t) (item : PlaylistItem) :
  item_text w' downloaded_files item = item_text w downloaded_files item.
Proof.
  unfold item_text, selected, candidate_matches, entry, path_line, tags_of,
    tag_result.
  now rewrite Hid3, Hcwd.
Qed.

Lemma item_events_env (downloaded_files : list Path.t) (item : PlaylistItem) :
  item_events w' downloaded_files item = item_events w downloaded_files item.
Proof.
  unfold item_events, scan_events, scanned, selected, candidate_matches,
    tag_warnings, tags_of, tag_result.
  now rewrite Hid3.
Qed.

End SameOracles.

Lemma effect_trans (p : Path.t) (t1 t2 : string) (e1 e2 : list event)
    (w w1 w2 : World) :
  effect p t1 e1 w w1 -> effect p t2 e2 w1 w2 ->
  effect p (t1 ++ t2) (e1 ++ e2) w w2.
Proof.
  intros [A1 A2 A3 A4 A5 A6 A7 A8] [B1 B2 B3 B4 B5 B6 B7 B8].
  constructor; try congruence.
  - now rewrite B6, A6, app_assoc.
  - intros c Hc. rewrite (B7 _ (A7 _ Hc)). now rewrite StrFacts.append_assoc.
  - intros q Hq. now rewrite (B8 _ Hq), (A8 _ Hq).
Qed.

(** One pass of the outer loop appends the entry of the matched pair, if
    there is one, and never raises. *)
Lemma reconcile_item_run (m3u_path : Path.t) (downloaded_files : list Path.t)
    (item : PlaylistItem) (w : World) :
  exists w',
    reconcile_item m3u_path downloaded_files item w = (inr tt, w') /\
    effect m3u_path (item_text w downloaded_files item)
           (item_events w downloaded_files item) w w'.
Proof.
  unfold reconcile_item, bind. rewrite find_matched_file_run.
  unfold item_text, item_events.
  destruct (selected w item downloaded_files) as [file_path|].
  - rewrite get_file_metadata_run.
    change (tags_of (set_stdout w _) file_path) with (tags_of w file_path).
    change (tag_warnings (set_stdout w _) file_path) with (tag_warnings w file_path).
    unfold mismatch_events.
    destruct (title_differs item (tags_of w file_path));
      destruct (artist_differs item (tags_of w file_path));
      cbn -[String.append extinf Path.str Path.absolute nl];
      eexists; (split; [reflexivity |]);
      (constructor; cbn -[String.append extinf Path.str Path.absolute nl];
       try reflexivity;
       [ rewrite <- ?app_assoc; cbn; rewrite ?app_nil_r; reflexivity
       | intros c Hc; rewrite !upd_same, Hc;
         unfold entry, extinf_line, path_line, display_title, display_artist;
         cbn [fst snd]; now rewrite StrFacts.append_assoc
       | intros q Hq; rewrite !upd_other by exact Hq; reflexivity ]).
  - cbn. eexists. split; [reflexivity |].
    constructor; cbn; try reflexivity.
    + now rewrite <- app_assoc.
    + intros c Hc. now rewrite StrFacts.append_nil_r.
Qed.

Lemma effect_refl (p : Path.t) (w : World) : effect p "" [] w w.
Proof.
  constructor; try reflexivity.
  - now rewrite app_nil_r.
  - intros c Hc. now rewrite StrFacts.append_nil_r.
Qed.

(** The outer loop: the texts and the printed lines of the passes, one
    after the other, each computed against the same candidate list. *)
Lemma for_each_reconcile_run (m3u_path : Path.t) (downloaded_files : list Path.t)
    (playlist_items : list PlaylistItem) (w : World) :
  exists w',
    for_each playlist_items (reconcile_item m3u_path downloaded_files) w
      = (inr tt, w') /\
    effect m3u_path
           (concat_str (map (item_text w downloaded_files) playlist_items))
           (flat_map (item_events w downloaded_files) playlist_items) w w'.
Proof.
  revert w. induction playlist_items as [|item rest IH]; intros w.
  - exists w. split; [reflexivity | apply effect_refl].
  - destruct (reconcile_item_run m3u_path downloaded_files item w)
      as [w1 [Hrun1 Heff1]].
    destruct (IH w1) as [w2 [Hrun2 Heff2]].
    exists w2. split.
    + cbn [for_each]. unfold bind. now rewrite Hrun1.
    + cbn [map concat_str flat_map].
      assert (Hid3 : id3 w1 = id3 w) by now destruct Heff1.
      assert (Hcwd : cwd w1 = cwd w) by now destruct Heff1.
      rewrite (map_ext _ _ (item_text_env w w1 Hid3 Hcwd downloaded_files))
        in Heff2.
      rewrite (flat_map_ext _ _ (item_events_env w w1 Hid3 downloaded_files))
        in Heff2.
      eapply effect_trans; eassumption.
Qed.

Lemma concat_item_text (w : World) (downloaded_files : list Path.t)
    (playlist_items : list PlaylistItem) :
  concat_str (map (item_text w downloaded_files) playlist_items) =
  concat_str (map (entry w) (matched_pairs w downloaded_files playlist_items)).
Proof.
  unfold matched_pairs, item_text.
  induction playlist_items as [|item rest IH]; [reflexivity |].
  cbn [map concat_str flat_map]. rewrite IH.
  now destruct (selected w item downloaded_files).
Qed.

(** [generate_m3u_playlist] returns the path of the document, which then
    holds [document]; no other file is touched. *)
Lemma generate_m3u_playlist_run (self : SpotyPod) (playlist_name : string)
    (playlist_dir : Path.t) (playlist_items : list PlaylistItem) (w : World) :
  exists w',
    generate_m3u_playlist self playlist_name playlist_dir playlist_items w
      = (inr (m3u_path_of self playlist_name), w') /\
    files w' (m3u_path_of self playlist_name)
      = Some (document w (candidates w playlist_dir) playlist_items) /\
    stdout w' = (stdout w ++ generate_events self playlist_name playlist_dir
                               playlist_items w)%list /\
    (forall q, q <> m3u_path_of self playlist_name -> files w' q = files w q) /\
    id3 w' = id3 w /\ cwd w' = cwd w /\ listing w' = listing w.
Proof.
  unfold generate_m3u_playlist, bind, glob_mp3, print, open_w, write, ret.
  cbn -[String.append for_each].
  fold (candidates w playlist_dir). fold (m3u_path_of self playlist_name).
  set (m3u := m3u_path_of self playlist_name).
  set (cands := candidates w playlist_dir).
  rewrite upd_same.
  match goal with
  | |- context [for_each _ _ ?w1] =>
      destruct (for_each_reconcile_run m3u cands playlist_items w1)
        as [w2 [Hrun Heff]]
  end.
  rewrite Hrun. eexists. split; [reflexivity |].
  destruct Heff as [E1 E2 E3 E4 E5 E6 E7 E8].
  cbn -[String.append] in *.
  repeat split.
  - rewrite (E7 _ (upd_same _ _ _)). unfold document.
    rewrite <- concat_item_text. reflexivity.
  - rewrite E6. unfold generate_events. rewrite <- !app_assoc. reflexivity.
  - intros q Hq. rewrite (E8 _ Hq). now rewrite !upd_other by exact Hq.
  - exact E4.
  - exact E1.
  - exact E3.
Qed.

(** Empty tags satisfy both halves of the tag-based branch, whatever the
    expected track is. *)
Lemma empty_tags_branch (item : PlaylistItem) (metadata : Metadata) :
  title metadata = "" -> tag_artist metadata = "" ->
  title_match item metadata = true /\ artist_match item metadata = true.
Proof.
  intros Ht Ha. unfold title_match, artist_match. rewrite Ht, Ha.
  cbn [Str.lower]. rewrite !StrFacts.contains_empty. now rewrite !orb_true_r.
Qed.

(** ** The match predicate *)


(** ** The scan *)

Lemma find_first {A} (p : A -> bool) (l : list A) :
  match find p l with
  | Some x =>
      exists pre post,
        l = (pre ++ x :: post)%list /\ p x = true /\
        forall y, In y pre -> p y = false
  | None => forall y, In y l -> p y = false
  end.
Proof.
  induction l as [|a l IH]; cbn [find].
  - intros y [].
  - destruct (p a) eqn:Ha.
    + exists [], l. repeat split; [exact Ha | intros y []].
    + destruct (find p l) as [x|].
      * destruct IH as [pre [post [-> [Hx Hpre]]]].
        exists (a :: pre), post. repeat split; [exact Hx |].
        intros y [<- | Hy]; [exact Ha | now apply Hpre].
      * intros y [<- | Hy]; [exact Ha | now apply IH].
Qed.

(** C2: for every expected track and every ordered candidate list, the scan
    returns the first candidate, in the order of the list, that satisfies the
    match predicate, and [None] when no candidate satisfies it; no candidate
    after the first satisfying one is ever returned.  The predicate is
    [is_match] on the metadata [get_file_metadata] returns for the
    candidate. *)
Theorem scan_returns_first_match (item : PlaylistItem)
    (downloaded_files : list Path.t) (w : World) :
  exists r w',
    find_matched_file item downloaded_files w = (inr r, w') /\
    (forall file_path,
        fst (get_file_metadata file_path w) = inr (tags_of w file_path) /\
        candidate_matches w item file_path
          = is_match item (tags_of w file_path) file_path) /\
    match r with
    | Some file_path =>
        exists before after,
          downloaded_files = (before ++ file_path :: after)%list /\
          candidate_matches w item file_path = true /\
          forall other, In other before -> candidate_matches w item other = false
    | None =>
        forall other, In other downloaded_files ->
                      candidate_matches w item other = false
    end.
Proof.
  exists (selected w item downloaded_files).
  eexists. split; [apply find_matched_file_run |].
  split; [| apply find_first].
  intros file_path. now rewrite get_file_metadata_run.
Qed.

(** ** The playlist document *)


Lemma matched_pairs_selected (w : World) (downloaded_files : list Path.t)
    (playlist_items : list PlaylistItem) (item : PlaylistItem)
    (file_path : Path.t) :
  In (item, file_path) (matched_pairs w downloaded_files playlist_items) <->
  In item playlist_items /\ selected w item downloaded_files = Some file_path.
Proof.
  unfold matched_pairs. rewrite in_flat_map. split.
  - intros [it [Hin Hpair]].
    destruct (selected w it downloaded_files) as [f|] eqn:Hsel; [| destruct Hpair].
    destruct Hpair as [Heq | []]. injection Heq as -> ->. now split.
  - intros [Hin Hsel]. exists item. split; [exact Hin |].
    rewrite Hsel. now left.
Qed.



(** ** Candidates without tags *)

(** C4, as stated, fails: the candidate [track01.mp3], whose tag title and
    tag artist are both empty, matches the track "Yesterday" of The Beatles
    although its file name matches nothing; the tag-based branch alone makes
    the match. *)
Lemma empty_tags_match_without_filename :
  ~ (forall item metadata file_path,
        title metadata = "" -> tag_artist metadata = "" ->
        is_match item metadata file_path = true ->
        filename_match item file_path = true).
Proof.
  intros H.
  specialize (H Ex.yesterday empty_metadata Ex.track01 eq_refl eq_refl eq_refl).
  discriminate H.
Qed.

(** C4, amended: for every candidate file whose tag title and tag artist are
    both empty, the tag-based branch holds for every expected track, so the
    candidate matches every expected track whether or not the filename-based
    predicate holds. *)
Theorem empty_tags_match_every_track (item : PlaylistItem) (metadata : Metadata)
    (file_path : Path.t) :
  title metadata = "" -> tag_artist metadata = "" ->
  title_match item metadata = true /\
  artist_match item metadata = true /\
  is_match item metadata file_path = true.
Proof.
  intros Ht Ha.
  destruct (empty_tags_branch item metadata Ht Ha) as [T A].
  repeat split; try assumption.
  unfold is_match. now rewrite T, A.
Qed.

Lemma empty_tags_match_every_track_witness :
  (title empty_metadata = "" /\ tag_artist empty_metadata = "") /\
  title_match Ex.yesterday empty_metadata = true /\
  artist_match Ex.yesterday empty_metadata = true /\
  is_match Ex.yesterday empty_metadata Ex.track01 = true.
Proof.
  split; [split; reflexivity |].
  apply (empty_tags_match_every_track Ex.yesterday empty_metadata Ex.track01);
    reflexivity.
Defined.

(** ** Skipping the download *)

Lemma div_neq (p : Path.t) (name : string) : Path.div p name <> p.
Proof.
  unfold Path.div. intros H.
  apply (f_equal (@List.length string)) in H.
  rewrite length_app in H. cbn in H. lia.
Qed.




(** ** Diagnostics and display values of a matched pair *)





(** What a pass of the outer loop does for a track that has a match. *)
Lemma reconcile_matched_run (m3u_path : Path.t) (downloaded_files : list Path.t)
    (item : PlaylistItem) (w : World) (file_path : Path.t) :
  selected w item downloaded_files = Some file_path ->
  exists w',
    reconcile_item m3u_path downloaded_files item w = (inr tt, w') /\
    stdout w' = (stdout w ++ scan_events w item downloaded_files
                          ++ tag_warnings w file_path
                          ++ mismatch_events item (tags_of w file_path))%list /\
    (forall c, files w m3u_path = Some c ->
               files w' m3u_path = Some (c ++ entry w (item, file_path))).
Proof.
  intros Hsel.
  destruct (reconcile_item_run m3u_path downloaded_files item w)
    as [w' [Hrun Heff]].
  exists w'. split; [exact Hrun |].
  destruct Heff as [_ _ _ _ _ Hout Hfile _].
  unfold item_events, item_text in *. rewrite Hsel in *.
  split; [exact Hout | exact Hfile].
Qed.




(** C8: for every matched pair, the title of the entry that is written is
    the tag title of the file when that tag is not empty and the name of the
    expected track, unchanged, when it is empty; the artist of the entry is
    the tag artist when it is not empty and the expected artist otherwise. *)
Theorem display_values (m3u_path : Path.t) (downloaded_files : list Path.t)
    (item : PlaylistItem) (w : World) (file_path : Path.t) :
  selected w item downloaded_files = Some file_path ->
  exists w' shown_artist shown_title,
    reconcile_item m3u_path downloaded_files item w = (inr tt, w') /\
    (forall c,
        files w m3u_path = Some c ->
        files w' m3u_path
          = Some (c ++ ("#EXTINF:-1," ++ shown_artist ++ " - " ++ shown_title
                          ++ nl)
                    ++ path_line w file_path)) /\
    (title (tags_of w file_path) <> "" ->
     shown_title = title (tags_of w file_path)) /\
    (title (tags_of w file_path) = "" -> shown_title = track_name item) /\
    (tag_artist (tags_of w file_path) <> "" ->
     shown_artist = tag_artist (tags_of w file_path)) /\
    (tag_artist (tags_of w file_path) = "" -> shown_artist = artist item).
Proof.
  intros Hsel.
  destruct (reconcile_matched_run m3u_path downloaded_files item w file_path Hsel)
    as [w' [Hrun [_ Hfile]]].
  exists w', (display_artist item (tags_of w file_path)),
    (display_title item (tags_of w file_path)).
  split; [exact Hrun |]. split; [exact Hfile |].
  unfold display_title, display_artist.
  repeat split.
  - apply StrFacts.or_else_nonempty.
  - intros ->. reflexivity.
  - apply StrFacts.or_else_nonempty.
  - intros ->. reflexivity.
Qed.

Lemma display_values_witness :
  selected Ex.untagged Ex.yesterday (candidates Ex.untagged Ex.playlist_dir)
    = Some Ex.track01 /\
  exists w' shown_artist shown_title,
    reconcile_item Ex.m3u (candidates Ex.untagged Ex.playlist_dir) Ex.yesterday
                   Ex.untagged = (inr tt, w') /\
    files w' Ex.m3u
      = Some (header ++ ("#EXTINF:-1," ++ shown_artist ++ " - " ++ shown_title
                           ++ nl)
                     ++ path_line Ex.untagged Ex.track01) /\
    shown_title = "Yesterday" /\ shown_artist = "The Beatles".
Proof.
  split; [reflexivity |].
  destruct (display_values Ex.m3u (candidates Ex.untagged Ex.playlist_dir)
              Ex.yesterday Ex.untagged Ex.track01 eq_refl)
    as [w' [a [t [Hrun [Hfile [_ [Ht [_ Ha]]]]]]]].
  exists w', a, t. split; [exact Hrun |].
  split; [apply Hfile; reflexivity |].
  split; [apply Ht | apply Ha]; reflexivity.
Defined.

(** ** A tag read that fails *)

(** C7, as stated, fails: in a directory where no file has readable tags the
    read of [track01.mp3] fails and is turned into empty metadata, but the scan
    does not go on with the remaining candidates: the empty metadata satisfies
    the tag-based branch, so the scan for "Yesterday" stops at [track01.mp3]
    and never reads [The Beatles - Yesterday.mp3]. *)
Lemma failed_read_ends_the_scan :
  ~ (forall w item file_path rest e,
        fst (read_tags file_path w) = inl e ->
        exists w1,
          get_file_metadata file_path w = (inr empty_metadata, w1) /\
          find_matched_file item (file_path :: rest) w
            = find_matched_file item rest w1).
Proof.
  intros H.
  destruct (H Ex.unreadable Ex.yesterday Ex.track01 [Ex.beatles_yesterday]
              Ex.no_header eq_refl) as [w1 [Hget Hscan]].
  apply (f_equal snd) in Hget. cbn [snd] in Hget. subst w1.
  apply (f_equal fst) in Hscan. cbv in Hscan. discriminate Hscan.
Qed.

(** C7, amended: for every candidate file whose tag read fails, the failure
    is caught and turned into empty metadata for title, artist and album,
    after one warning; the metadata of the other candidates is not affected
    and no scan ever raises.  The scan then judges the candidate on its empty
    metadata, which satisfies the tag-based branch: it returns this candidate
    and does not read the remaining ones. *)
Theorem failed_tag_read_is_caught (w : World) (file_path : Path.t) (e : exn) :
  fst (read_tags file_path w) = inl e ->
  let w1 := set_stdout w (stdout w ++ [ev_metadata_warning file_path e]) in
  get_file_metadata file_path w = (inr empty_metadata, w1) /\
  (forall other,
      fst (get_file_metadata other w1) = fst (get_file_metadata other w)) /\
  (forall item downloaded_files,
      exists r w', find_matched_file item downloaded_files w = (inr r, w')) /\
  (forall item rest,
      find_matched_file item (file_path :: rest) w = (inr (Some file_path), w1)).
Proof.
  intros Hfail w1. rewrite read_tags_run in Hfail. cbn [fst] in Hfail.
  assert (Hget : get_file_metadata file_path w = (inr empty_metadata, w1)).
  { rewrite get_file_metadata_run. unfold tags_of, tag_warnings.
    now rewrite Hfail. }
  split; [exact Hget |].
  split; [| split].
  - intros other. now rewrite !get_file_metadata_run.
  - intros item downloaded_files. rewrite find_matched_file_run.
    now eexists _, _.
  - intros item rest. cbn [find_matched_file]. unfold bind. rewrite Hget.
    destruct (empty_tags_branch item empty_metadata eq_refl eq_refl) as [T A].
    unfold is_match. now rewrite T, A.
Qed.

Lemma failed_tag_read_is_caught_witness :
  fst (read_tags Ex.track01 Ex.unreadable) = inl Ex.no_header /\
  get_file_metadata Ex.track01 Ex.unreadable
    = (inr empty_metadata,
       set_stdout Ex.unreadable
         [ev_metadata_warning Ex.track01 Ex.no_header]) /\
  find_matched_file Ex.yesterday [Ex.track01; Ex.beatles_yesterday]
                    Ex.unreadable
    = (inr (Some Ex.track01),
       set_stdout Ex.unreadable
         [ev_metadata_warning Ex.track01 Ex.no_header]).
Proof.
  split; [reflexivity |].
  destruct (failed_tag_read_is_caught Ex.unreadable Ex.track01 Ex.no_header
              eq_refl) as [Hget [_ [_ Hscan]]].
  split; [exact Hget | apply Hscan].
Defined.


(** ** One file for several tracks *)

(** C9: matching is not exclusive.  When the playlist directory holds a
    single downloaded file and two expected tracks both satisfy the match
    predicate on it, the document has two entries, one for each track, and
    both point at the absolute path of that file. *)
Theorem same_file_for_two_tracks (self : SpotyPod) (playlist_name : string)
    (playlist_dir : Path.t) (first second : PlaylistItem) (file_path : Path.t)
    (w : World) :
  candidates w playlist_dir = [file_path] ->
  candidate_matches w first file_path = true ->
  candidate_matches w second file_path = true ->
  exists w',
    generate_m3u_playlist self playlist_name playlist_dir [first; second] w
      = (inr (m3u_path_of self playlist_name), w') /\
    files w' (m3u_path_of self playlist_name)
      = Some (header
                ++ (extinf_line first (tags_of w file_path)
                      ++ Path.str (Path.absolute (cwd w) file_path) ++ nl)
                ++ (extinf_line second (tags_of w file_path)
                      ++ Path.str (Path.absolute (cwd w) file_path) ++ nl)).
Proof.
  intros Hcand Hfirst Hsecond.
  destruct (generate_m3u_playlist_run self playlist_name playlist_dir
              [first; second] w) as [w' [Hrun [Hfile _]]].
  exists w'. split; [exact Hrun |].
  rewrite Hfile, Hcand. unfold document, matched_pairs, selected.
  cbn [flat_map find]. rewrite Hfirst, Hsecond.
  cbn [app map concat_str]. unfold entry, path_line. cbn [fst snd].
  now rewrite StrFacts.append_nil_r.
Qed.

Lemma same_file_for_two_tracks_witness :
  (candidates Ex.tagged Ex.playlist_dir = [Ex.track01] /\
   candidate_matches Ex.tagged Ex.yesterday Ex.track01 = true /\
   candidate_matches Ex.tagged Ex.help Ex.track01 = true) /\
  exists w',
    generate_m3u_playlist Ex.spotypod "mix" Ex.playlist_dir
                          [Ex.yesterday; Ex.help] Ex.tagged
      = (inr Ex.m3u, w') /\
    files w' Ex.m3u
      = Some (header
                ++ (extinf_line Ex.yesterday (tags_of Ex.tagged Ex.track01)
                      ++ "/home/me/output/mix/track01.mp3" ++ nl)
                ++ (extinf_line Ex.help (tags_of Ex.tagged Ex.track01)
                      ++ "/home/me/output/mix/track01.mp3" ++ nl)).
Proof.
  split; [repeat split |].
  apply (same_file_for_two_tracks Ex.spotypod "mix" Ex.playlist_dir
           Ex.yesterday Ex.help Ex.track01 Ex.tagged); reflexivity.
Defined.

(** ** The candidate files *)

Lemma candidates_spec (w : World) (playlist_dir : Path.t) (file_path : Path.t) :
  In file_path (candidates w playlist_dir) <->
  exists name,
    In name (listing w playlist_dir) /\
    Str.endswith ".mp3" name = true /\
    file_path = Path.div playlist_dir name.
Proof.
  unfold candidates. rewrite in_map_iff. split.
  - intros [name [<- Hin]]. apply filter_In in Hin. now exists name.
  - intros [name [Hin [Hext ->]]]. exists name. split; [reflexivity |].
    now apply filter_In.
Qed.

Lemma div_inj (p : Path.t) (a b : string) : Path.div p a = Path.div p b -> a = b.
Proof. unfold Path.div. intros H. now apply app_inj_tail in H. Qed.

Lemma selected_in (w : World) (item : PlaylistItem)
    (downloaded_files : list Path.t) (file_path : Path.t) :
  selected w item downloaded_files = Some file_path ->
  In file_path downloaded_files.
Proof. unfold selected. intros H. now apply find_some in H. Qed.

(** C10: only the files of the playlist directory whose name ends in
    [.mp3] are candidates.  The list the matcher scans is made of those
    files; every file the document points at is one of them; a file of the
    directory with another extension is not scanned, is not selected for any
    track and has no entry in the document, whatever its tags and its stem. *)
Theorem only_mp3_files_are_candidates (self : SpotyPod) (playlist_name : string)
    (playlist_dir : Path.t) (playlist_items : list PlaylistItem) (w : World) :
  fst (glob_mp3 playlist_dir w) = inr (candidates w playlist_dir) /\
  (forall file_path,
      In file_path (candidates w playlist_dir) <->
      exists name,
        In name (listing w playlist_dir) /\
        (exists stem, name = stem ++ ".mp3") /\
        file_path = Path.div playlist_dir name) /\
  exists w' pairs,
    generate_m3u_playlist self playlist_name playlist_dir playlist_items w
      = (inr (m3u_path_of self playlist_name), w') /\
    files w' (m3u_path_of self playlist_name)
      = Some (header ++ concat_str (map (entry w) pairs)) /\
    (forall item file_path,
        In (item, file_path) pairs ->
        selected w item (candidates w playlist_dir) = Some file_path /\
        exists stem, Path.name file_path = stem ++ ".mp3") /\
    (forall name,
        Str.endswith ".mp3" name = false ->
        ~ In (Path.div playlist_dir name) (candidates w playlist_dir) /\
        (forall item,
            selected w item (candidates w playlist_dir)
              <> Some (Path.div playlist_dir name)) /\
        (forall item, ~ In (item, Path.div playlist_dir name) pairs)).
Proof.
  assert (Hspec : forall file_path,
             In file_path (candidates w playlist_dir) <->
             exists name,
               In name (listing w playlist_dir) /\
               (exists stem, name = stem ++ ".mp3") /\
               file_path = Path.div playlist_dir name).
  { intros file_path. rewrite candidates_spec.
    split; intros [name [Hin [Hext Hpath]]]; exists name;
      (split; [exact Hin |]); (split; [| exact Hpath]);
      now apply StrFacts.endswith_spec. }
  assert (Hnot : forall name,
             Str.endswith ".mp3" name = false ->
             ~ In (Path.div playlist_dir name) (candidates w playlist_dir)).
  { intros name Hext Hin. apply candidates_spec in Hin.
    destruct Hin as [name' [_ [Hext' Heq]]].
    apply div_inj in Heq. subst name'. congruence. }
  split; [reflexivity |]. split; [exact Hspec |].
  destruct (generate_m3u_playlist_run self playlist_name playlist_dir
              playlist_items w) as [w' [Hrun [Hfile _]]].
  exists w', (matched_pairs w (candidates w playlist_dir) playlist_items).
  split; [exact Hrun |]. split; [exact Hfile |]. split.
  - intros item file_path Hin. apply matched_pairs_selected in Hin.
    destruct Hin as [_ Hsel]. split; [exact Hsel |].
    apply selected_in, Hspec in Hsel.
    destruct Hsel as [name [_ [Hext ->]]].
    unfold Path.name, Path.div. now rewrite last_last.
  - intros name Hext. split; [now apply Hnot |]. split.
    + intros item Hsel. apply selected_in in Hsel. now apply (Hnot name).
    + intros item Hin. apply matched_pairs_selected in Hin.
      destruct Hin as [_ Hsel]. apply selected_in in Hsel.
      now apply (Hnot name).
Qed.

(** * Further properties of the program *)

(** ** Reading the CSV file *)

(** X1: [read_exportify_csv] returns the stem of the CSV path as playlist
    name and leaves the world alone; every track it returns has a non-empty
    name and a non-empty artist, and there are at most as many tracks as
    rows. *)
Theorem read_exportify_csv_tracks_complete (csv_path : Path.t) (w : World)
    (rows : list Row) :
  csv w csv_path = Some rows ->
  exists playlist_items,
    read_exportify_csv csv_path w
      = (inr (Path.stem csv_path, playlist_items), w) /\
    Forall (fun item => track_name item <> "" /\ artist item <> "")
           playlist_items /\
    List.length playlist_items <= List.length rows.
Proof.
  intros Hrows. exists (playlist_items_of rows). split.
  - unfold read_exportify_csv, bind, read_rows, ret. now rewrite Hrows.
  - clear Hrows. induction rows as [|row rest [IHc IHl]].
    + split; [constructor | reflexivity].
    + cbn [playlist_items_of].
      destruct (Str.nonempty _ && Str.nonempty _) eqn:Hne.
      * apply andb_true_iff in Hne. destruct Hne as [Ht Ha].
        apply StrFacts.nonempty_spec in Ht, Ha.
        split; [constructor; [now split | exact IHc] | cbn; lia].
      * split; [exact IHc | cbn; lia].
Qed.

Lemma read_exportify_csv_tracks_complete_witness :
  csv Ex.no_directory Ex.mix_csv <> None /\
  exists playlist_items,
    read_exportify_csv Ex.mix_csv Ex.no_directory
      = (inr ("mix", playlist_items), Ex.no_directory) /\
    Forall (fun item => track_name item <> "" /\ artist item <> "")
           playlist_items /\
    List.length playlist_items <= 1.
Proof.
  split; [discriminate |].
  apply (read_exportify_csv_tracks_complete Ex.mix_csv Ex.no_directory
           [[("Track Name", "Yesterday"); ("Artist Name(s)", "The Beatles");
             ("Album Name", "Help!")]] eq_refl).
Defined.

(** X2: a row in which the column [Track Name] is present with an empty
    value is dropped, even when the alias column [track_name] holds a name:
    the alias is only the default of the lookup. *)
Theorem empty_primary_column_drops_row (row : Row) (rest : list Row) :
  (forall default, dict_get row "Track Name" default = "") ->
  playlist_items_of (row :: rest) = playlist_items_of rest.
Proof.
  intros H. cbn [playlist_items_of]. now rewrite H.
Qed.

Lemma empty_primary_column_drops_row_witness :
  dict_get Ex2.shadowed_row "track_name" "" = "Yesterday" /\
  playlist_items_of [Ex2.shadowed_row] = [].
Proof.
  split; [reflexivity |].
  apply (empty_primary_column_drops_row Ex2.shadowed_row []).
  intros default. reflexivity.
Defined.

(** ** Reading the tags *)

(** X3: when one of the keys [title], [artist], [album] holds an empty list
    of values, indexing it raises; [get_file_metadata] then returns empty
    strings for all three fields, also for those that could be read, and
    prints one warning. *)
Theorem empty_value_list_empties_metadata (file_path : Path.t) (w : World)
    (audio : Tags) :
  id3 w (Path.str file_path) = inr audio ->
  dict_get audio "title" [""] = [] \/
  dict_get audio "artist" [""] = [] \/
  dict_get audio "album" [""] = [] ->
  get_file_metadata file_path w
    = (inr empty_metadata,
       set_stdout w (stdout w ++
         [ev_metadata_warning file_path
            (IndexError "list index out of range")])).
Proof.
  intros Hid3 Hempty.
  rewrite get_file_metadata_run. unfold tags_of, tag_warnings, tag_result.
  rewrite Hid3.
  destruct (dict_get audio "title" [""]) as [|t ?].
  - reflexivity.
  - destruct (dict_get audio "artist" [""]) as [|a ?]; [reflexivity |].
    destruct (dict_get audio "album" [""]) as [|al ?]; [reflexivity |].
    destruct Hempty as [H | [H | H]]; discriminate H.
Qed.

Lemma empty_value_list_empties_metadata_witness :
  dict_get Ex2.no_artist_value "title" [""] = ["Yesterday"] /\
  dict_get Ex2.no_artist_value "artist" [""] = [] /\
  get_file_metadata Ex.track01 Ex2.half_tagged
    = (inr empty_metadata,
       set_stdout Ex2.half_tagged
         [ev_metadata_warning Ex.track01
            (IndexError "list index out of range")]).
Proof.
  split; [reflexivity |]. split; [reflexivity |].
  apply (empty_value_list_empties_metadata Ex.track01 Ex2.half_tagged
           Ex2.no_artist_value eq_refl).
  right. left. reflexivity.
Defined.

(** ** Matches that are certain *)











(** ** The document as a whole *)

Lemma document_env (w w' : World) (downloaded_files : list Path.t)
    (playlist_items : list PlaylistItem) :
  id3 w' = id3 w -> cwd w' = cwd w ->
  document w' downloaded_files playlist_items
    = document w downloaded_files playlist_items.
Proof.
  intros Hid3 Hcwd.
  unfold document, matched_pairs, selected, candidate_matches, entry,
    path_line, tags_of, tag_result.
  now rewrite Hid3, Hcwd.
Qed.

Lemma candidates_env (w w' : World) (playlist_dir : Path.t) :
  listing w' = listing w ->
  candidates w' playlist_dir = candidates w playlist_dir.
Proof. intros H. unfold candidates. now rewrite H. Qed.

Lemma matched_pairs_app (w : World) (downloaded_files : list Path.t)
    (items1 items2 : list PlaylistItem) :
  matched_pairs w downloaded_files (items1 ++ items2) =
  (matched_pairs w downloaded_files items1
     ++ matched_pairs w downloaded_files items2)%list.
Proof. unfold matched_pairs. apply flat_map_app. Qed.

Lemma concat_str_app (l1 l2 : list string) :
  concat_str (l1 ++ l2) = concat_str l1 ++ concat_str l2.
Proof.
  induction l1 as [|s l1 IH]; cbn; [reflexivity |].
  now rewrite IH, StrFacts.append_assoc.
Qed.

Lemma matched_pairs_nil (w : World) (playlist_items : list PlaylistItem) :
  matched_pairs w [] playlist_items = [].
Proof.
  unfold matched_pairs.
  induction playlist_items as [|item rest IH]; [reflexivity | exact IH].
Qed.

Lemma item_events_nil (w : World) (playlist_items : list PlaylistItem) :
  flat_map (item_events w []) playlist_items
    = map ev_not_found_warning playlist_items.
Proof.
  induction playlist_items as [|item rest IH]; [reflexivity |].
  cbn [flat_map map]. now rewrite IH.
Qed.

(** With a first candidate that has neither title nor artist, every track
    is paired with it and shown with the values of its CSV row. *)
Lemma entries_of_untagged_first (w : World) (file_path : Path.t)
    (rest : list Path.t) (playlist_items : list PlaylistItem) :
  title (tags_of w file_path) = "" -> tag_artist (tags_of w file_path) = "" ->
  concat_str (map (entry w)
                  (matched_pairs w (file_path :: rest) playlist_items))
    = concat_str (map (csv_entry w file_path) playlist_items).
Proof.
  intros Ht Ha. unfold matched_pairs.
  induction playlist_items as [|item items IH]; [reflexivity |].
  cbn [flat_map map]. unfold selected at 1. cbn [find].
  unfold candidate_matches at 1, is_match.
  destruct (empty_tags_branch item (tags_of w file_path) Ht Ha) as [T A].
  rewrite T, A. cbn [andb orb app map concat_str]. rewrite IH.
  f_equal. unfold entry, extinf_line, csv_entry, display_artist, display_title.
  cbn [fst snd]. now rewrite Ht, Ha.
Qed.

(** X6: when the playlist directory yields no candidate, the document is
    the header line alone and the run prints one not-found warning for each
    expected track, in the order of the track list. *)
Theorem no_candidates_header_only (self : SpotyPod) (playlist_name : string)
    (playlist_dir : Path.t) (playlist_items : list PlaylistItem) (w : World) :
  fst (glob_mp3 playlist_dir w) = inr [] ->
  exists w',
    generate_m3u_playlist self playlist_name playlist_dir playlist_items w
      = (inr (m3u_path_of self playlist_name), w') /\
    files w' (m3u_path_of self playlist_name) = Some ("#EXTM3U" ++ nl) /\
    stdout w' =
      (stdout w ++
       [ev_generating (m3u_path_of self playlist_name); ev_found 0;
        ev_expected (List.length playlist_items)] ++
       map ev_not_found_warning playlist_items ++
       [ev_saved (m3u_path_of self playlist_name)])%list.
Proof.
  intros Hglob.
  assert (Hcand : candidates w playlist_dir = []).
  { cbn in Hglob. now injection Hglob. }
  destruct (generate_m3u_playlist_run self playlist_name playlist_dir
              playlist_items w) as [w' [Hrun [Hfile [Hout _]]]].
  exists w'. split; [exact Hrun |].
  rewrite Hfile, Hout. unfold generate_events, document. rewrite Hcand.
  rewrite matched_pairs_nil, item_events_nil. cbn [map concat_str List.length].
  now rewrite StrFacts.append_nil_r.
Qed.

Lemma no_candidates_header_only_witness :
  fst (glob_mp3 Ex.playlist_dir Ex2.empty_dir) = inr [] /\
  exists w',
    generate_m3u_playlist Ex.spotypod "mix" Ex.playlist_dir
                          [Ex.yesterday; Ex.help] Ex2.empty_dir
      = (inr Ex.m3u, w') /\
    files w' Ex.m3u = Some ("#EXTM3U" ++ nl) /\
    stdout w' =
      [ev_generating Ex.m3u; ev_found 0; ev_expected 2;
       ev_not_found_warning Ex.yesterday; ev_not_found_warning Ex.help;
       ev_saved Ex.m3u].
Proof.
  split; [reflexivity |].
  apply (no_candidates_header_only Ex.spotypod "mix" Ex.playlist_dir
           [Ex.yesterday; Ex.help] Ex2.empty_dir eq_refl).
Defined.

(** X7: when the first candidate of the directory has neither a title nor
    an artist in the metadata that [get_file_metadata] returns (no such tags,
    or tags that cannot be read), every expected track is matched with that
    file: the document has one entry for each track of the list, showing the
    artist and track name of the CSV row and pointing at that one file. *)
Theorem untagged_first_file_takes_every_track (self : SpotyPod)
    (playlist_name : string) (playlist_dir : Path.t)
    (playlist_items : list PlaylistItem) (w : World) (file_path : Path.t)
    (rest : list Path.t) (metadata : Metadata) :
  fst (glob_mp3 playlist_dir w) = inr (file_path :: rest) ->
  fst (get_file_metadata file_path w) = inr metadata ->
  title metadata = "" -> tag_artist metadata = "" ->
  exists w',
    generate_m3u_playlist self playlist_name playlist_dir playlist_items w
      = (inr (m3u_path_of self playlist_name), w') /\
    files w' (m3u_path_of self playlist_name)
      = Some (("#EXTM3U" ++ nl)
                ++ concat_str (map (csv_entry w file_path) playlist_items)).
Proof.
  intros Hglob Hget Ht Ha.
  assert (Hcand : candidates w playlist_dir = file_path :: rest).
  { cbn in Hglob. now injection Hglob. }
  rewrite get_file_metadata_run in Hget. cbn [fst] in Hget.
  injection Hget as Hmeta.
  destruct (generate_m3u_playlist_run self playlist_name playlist_dir
              playlist_items w) as [w' [Hrun [Hfile _]]].
  exists w'. split; [exact Hrun |].
  rewrite Hfile, Hcand. unfold document. do 2 f_equal.
  apply entries_of_untagged_first; now rewrite Hmeta.
Qed.

Lemma untagged_first_file_takes_every_track_witness :
  (fst (glob_mp3 Ex.playlist_dir Ex.unreadable)
     = inr [Ex.track01; Ex.beatles_yesterday] /\
   fst (get_file_metadata Ex.track01 Ex.unreadable) = inr empty_metadata) /\
  exists w',
    generate_m3u_playlist Ex.spotypod "mix" Ex.playlist_dir
                          [Ex.yesterday; Ex.help] Ex.unreadable
      = (inr Ex.m3u, w') /\
    files w' Ex.m3u
      = Some (("#EXTM3U" ++ nl)
                ++ concat_str (map (csv_entry Ex.unreadable Ex.track01)
                                   [Ex.yesterday; Ex.help])).
Proof.
  split; [split; reflexivity |].
  apply (untagged_first_file_takes_every_track Ex.spotypod "mix"
           Ex.playlist_dir [Ex.yesterday; Ex.help] Ex.unreadable Ex.track01
           [Ex.beatles_yesterday] empty_metadata);
    reflexivity.
Defined.

(** X8: generating the playlist a second time, in the world the first run
    has left, succeeds again and leaves the same document. *)
Theorem regenerating_gives_same_document (self : SpotyPod)
    (playlist_name : string) (playlist_dir : Path.t)
    (playlist_items : list PlaylistItem) (w : World) :
  let w1 := snd (generate_m3u_playlist self playlist_name playlist_dir
                                       playlist_items w) in
  exists w2,
    generate_m3u_playlist self playlist_name playlist_dir playlist_items w1
      = (inr (m3u_path_of self playlist_name), w2) /\
    files w2 (m3u_path_of self playlist_name)
      = files w1 (m3u_path_of self playlist_name) /\
    files w1 (m3u_path_of self playlist_name) <> None.
Proof.
  intros w1.
  destruct (generate_m3u_playlist_run self playlist_name playlist_dir
              playlist_items w)
    as [w1' [Hrun1 [Hfile1 [_ [_ [Hid3 [Hcwd Hlist]]]]]]].
  assert (Hw1 : w1 = w1') by (unfold w1; now rewrite Hrun1).
  rewrite Hw1.
  destruct (generate_m3u_playlist_run self playlist_name playlist_dir
              playlist_items w1') as [w2 [Hrun2 [Hfile2 _]]].
  exists w2. split; [exact Hrun2 |].
  rewrite Hfile2, Hfile1.
  rewrite (candidates_env w w1' playlist_dir Hlist).
  rewrite (document_env w w1' _ _ Hid3 Hcwd).
  split; [reflexivity | discriminate].
Qed.

(** X9: the tracks are reconciled independently of one another: the
    document of a track list made of two parts is the header followed by the
    entries of the document of the first part and then by those of the
    document of the second part. *)
Theorem document_of_concatenated_lists (self : SpotyPod)
    (playlist_name : string) (playlist_dir : Path.t)
    (items1 items2 : list PlaylistItem) (w : World) :
  exists w1 w2 w12 body1 body2,
    generate_m3u_playlist self playlist_name playlist_dir items1 w
      = (inr (m3u_path_of self playlist_name), w1) /\
    files w1 (m3u_path_of self playlist_name)
      = Some (("#EXTM3U" ++ nl) ++ body1) /\
    generate_m3u_playlist self playlist_name playlist_dir items2 w
      = (inr (m3u_path_of self playlist_name), w2) /\
    files w2 (m3u_path_of self playlist_name)
      = Some (("#EXTM3U" ++ nl) ++ body2) /\
    generate_m3u_playlist self playlist_name playlist_dir (items1 ++ items2) w
      = (inr (m3u_path_of self playlist_name), w12) /\
    files w12 (m3u_path_of self playlist_name)
      = Some (("#EXTM3U" ++ nl) ++ body1 ++ body2).
Proof.
  destruct (generate_m3u_playlist_run self playlist_name playlist_dir items1 w)
    as [w1 [Hrun1 [Hfile1 _]]].
  destruct (generate_m3u_playlist_run self playlist_name playlist_dir items2 w)
    as [w2 [Hrun2 [Hfile2 _]]].
  destruct (generate_m3u_playlist_run self playlist_name playlist_dir
              (items1 ++ items2) w) as [w12 [Hrun12 [Hfile12 _]]].
  exists w1, w2, w12.
  exists (concat_str (map (entry w)
            (matched_pairs w (candidates w playlist_dir) items1))).
  exists (concat_str (map (entry w)
            (matched_pairs w (candidates w playlist_dir) items2))).
  repeat (split; [assumption |]).
  rewrite Hfile12. unfold document.
  now rewrite matched_pairs_app, map_app, concat_str_app.
Qed.

(** ** The download stage *)

Lemma write_queries_run (queries_file : Path.t)
    (playlist_items : list PlaylistItem) (w : World) :
  exists w',
    for_each playlist_items
      (fun item =>
         write queries_file (artist item ++ " - " ++ track_name item ++ nl)) w
      = (inr tt, w') /\
    effect queries_file (queries_text playlist_items) [] w w'.
Proof.
  revert w. induction playlist_items as [|item rest IH]; intros w.
  - exists w. split; [reflexivity | apply effect_refl].
  - cbn [for_each]. unfold bind at 1.
    set (w1 := snd (write queries_file
                      (artist item ++ " - " ++ track_name item ++ nl) w)).
    change (write queries_file
              (artist item ++ " - " ++ track_name item ++ nl) w)
      with (@inr exn unit tt, w1).
    destruct (IH w1) as [w2 [Hrun Heff]]. exists w2. split; [exact Hrun |].
    change (queries_text (item :: rest))
      with (query_line item ++ queries_text rest).
    change (@nil event) with (@nil event ++ [])%list.
    eapply effect_trans; [| exact Heff].
    unfold w1, write. constructor; cbn -[String.append]; try reflexivity.
    + now rewrite app_nil_r.
    + intros c Hc. now rewrite upd_same, Hc.
    + intros p Hp. now rewrite upd_other.
Qed.

Lemma div_neq_sym (p : Path.t) (name : string) : p <> Path.div p name.
Proof. intros H. symmetry in H. now apply div_neq in H. Qed.

(** What the world looks like when the tool is started. *)
Lemma prepare_download_run (self : SpotyPod) (playlist_name : string)
    (playlist_items : list PlaylistItem) (w : World) :
  let w1 := world_at_spotdl self playlist_name playlist_items w in
  prepare_download self playlist_name playlist_items w = (inr tt, w1) /\
  files w1 (queries_file_of self playlist_name)
    = Some (queries_text playlist_items) /\
  (forall p, p <> queries_file_of self playlist_name ->
             files w1 p = files w p) /\
  exists_ w1 (playlist_dir_of self playlist_name) = true /\
  stdout w1 = (stdout w ++
                [ev_downloading playlist_name;
                 ev_output_directory (playlist_dir_of self playlist_name);
                 ev_running (spotdl_cmd self playlist_name)])%list /\
  id3 w1 = id3 w /\ listing w1 = listing w /\ cwd w1 = cwd w /\ csv w1 = csv w.
Proof.
  unfold world_at_spotdl, prepare_download.
  fold (playlist_dir_of self playlist_name).
  fold (queries_file_of self playlist_name).
  set (dir := playlist_dir_of self playlist_name).
  set (q := queries_file_of self playlist_name).
  cbv [bind mkdir print open_w].
  match goal with
  | |- context [for_each _ _ ?w0] =>
      destruct (write_queries_run q playlist_items w0) as [w1 [Hrun Heff]]
  end.
  rewrite Hrun. cbn [snd].
  destruct Heff as [E1 E2 E3 E4 E5 E6 E7 E8].
  cbn -[String.append] in *.
  split; [reflexivity |].
  split; [exact (E7 _ (upd_same _ _ _)) |].
  split; [intros p Hp; rewrite (E8 _ Hp); now rewrite upd_other |].
  split.
  { rewrite E2. rewrite upd_other by apply div_neq_sym. apply upd_same. }
  split.
  { rewrite E6, app_nil_r, <- !app_assoc. reflexivity. }
  repeat split; assumption.
Qed.

(** [download_playlist] is its preparation, the call of the tool, and the
    handling of what the call gives. *)
Lemma download_playlist_run (run : list string -> M CompletedProcess)
    (self : SpotyPod) (playlist_name : string)
    (playlist_items : list PlaylistItem) (w : World) :
  download_playlist run self playlist_name playlist_items w =
  match run (spotdl_cmd self playlist_name)
            (world_at_spotdl self playlist_name playlist_items w) with
  | (inr result, w2) =>
      (unlink (queries_file_of self playlist_name) ;;;
       ret (playlist_dir_of self playlist_name))
        (set_stdout w2 (stdout w2 ++ spotdl_report result))
  | (inl e, w2) =>
      if String.eqb (exn_class e) "FileNotFoundError"
      then (unlink (queries_file_of self playlist_name) ;;;
            ret (playlist_dir_of self playlist_name))
             (set_stdout w2 (stdout w2 ++ [ev_spotdl_not_found]))
      else (inl e, w2)
  end.
Proof.
  destruct (prepare_download_run self playlist_name playlist_items w)
    as [Hprep _].
  set (w1 := world_at_spotdl self playlist_name playlist_items w) in *.
  unfold prepare_download in Hprep. unfold download_playlist.
  fold (playlist_dir_of self playlist_name) in *.
  fold (queries_file_of self playlist_name) in *.
  fold (spotdl_cmd self playlist_name).
  set (dir := playlist_dir_of self playlist_name) in *.
  set (q := queries_file_of self playlist_name) in *.
  set (cmd := spotdl_cmd self playlist_name) in *.
  cbv [bind mkdir print open_w try_except_class] in *.
  match goal with
  | |- context [for_each ?xs ?f ?w0] =>
      destruct (for_each xs f w0) as [[e | []] w0']; [discriminate Hprep |]
  end.
  injection Hprep as Hw1. rewrite Hw1.
  destruct (run cmd w1) as [[e | result] w2].
  - destruct (String.eqb (exn_class e) "FileNotFoundError"); reflexivity.
  - unfold spotdl_report.
    destruct (negb (Z.eqb (returncode result) 0)); cbn.
    + now rewrite <- app_assoc.
    + reflexivity.
Qed.

Lemma unlink_ret_run (q dir : Path.t) (w : World) :
  exists w',
    (unlink q ;;; ret dir) w = (inr dir, w') /\
    files w' q = None /\ exists_ w' q = false /\
    (forall p, p <> q -> files w' p = files w p) /\
    (forall p, p <> q -> exists_ w' p = exists_ w p) /\
    stdout w' = stdout w /\ id3 w' = id3 w /\ listing w' = listing w /\
    cwd w' = cwd w /\ csv w' = csv w.
Proof.
  eexists. split; [reflexivity |]. cbn.
  rewrite !upd_same.
  repeat split; try reflexivity; intros p Hp; now rewrite upd_other.
Qed.

(** X10: when the download tool is started, the playlist directory exists
    and [queries.txt] in it holds one line [<artist> - <track name>] for each
    expected track, in the order of the track list; the tool is called as
    [spotdl download <queries file> --output <playlist directory> --format mp3],
    and [download_playlist] depends on the tool only through what that call
    does in that world. *)
Theorem queries_file_at_invocation (self : SpotyPod) (playlist_name : string)
    (playlist_items : list PlaylistItem) (w : World) :
  let w1 := world_at_spotdl self playlist_name playlist_items w in
  let queries_file :=
    Path.div (Path.div (output_dir self) playlist_name) "queries.txt" in
  let cmd := ["spotdl"; "download"; Path.str queries_file; "--output";
              Path.str (Path.div (output_dir self) playlist_name);
              "--format"; "mp3"] in
  files w1 queries_file
    = Some (concat_str
              (map (fun item => artist item ++ " - " ++ track_name item ++ nl)
                   playlist_items)) /\
  exists_ w1 (Path.div (output_dir self) playlist_name) = true /\
  (forall run1 run2 : list string -> M CompletedProcess,
      run1 cmd w1 = run2 cmd w1 ->
      download_playlist run1 self playlist_name playlist_items w
        = download_playlist run2 self playlist_name playlist_items w).
Proof.
  intros w1 queries_file cmd.
  destruct (prepare_download_run self playlist_name playlist_items w)
    as [_ [Hq [_ [Hdir _]]]].
  split; [exact Hq |]. split; [exact Hdir |].
  intros run1 run2 Hsame. rewrite !download_playlist_run.
  change (spotdl_cmd self playlist_name) with cmd.
  fold w1. now rewrite Hsame.
Qed.

(** X11: when starting the tool raises [FileNotFoundError], because it is
    not installed, [download_playlist] does not fail: it prints the hint to
    install the tool, removes [queries.txt] and returns the playlist
    directory. *)
Theorem missing_tool_is_not_fatal (run : list string -> M CompletedProcess)
    (self : SpotyPod) (playlist_name : string)
    (playlist_items : list PlaylistItem) (w : World) (e : exn) (w2 : World) :
  run (spotdl_cmd self playlist_name)
      (world_at_spotdl self playlist_name playlist_items w) = (inl e, w2) ->
  exn_class e = "FileNotFoundError" ->
  exists w',
    download_playlist run self playlist_name playlist_items w
      = (inr (Path.div (output_dir self) playlist_name), w') /\
    stdout w' = (stdout w2 ++ [ev_spotdl_not_found])%list /\
    files w' (queries_file_of self playlist_name) = None /\
    exists_ w' (queries_file_of self playlist_name) = false /\
    (forall p, p <> queries_file_of self playlist_name ->
               files w' p = files w2 p).
Proof.
  intros Hrun Hclass. rewrite download_playlist_run, Hrun, Hclass.
  cbn [String.eqb Ascii.eqb Bool.eqb].
  destruct (unlink_ret_run (queries_file_of self playlist_name)
              (playlist_dir_of self playlist_name)
              (set_stdout w2 (stdout w2 ++ [ev_spotdl_not_found])))
    as [w' [Hfin [Hq [Hex [Hothers [_ [Hout _]]]]]]].
  exists w'. split; [exact Hfin |]. split; [exact Hout |].
  split; [exact Hq |]. split; [exact Hex |]. exact Hothers.
Qed.

Lemma missing_tool_is_not_fatal_witness :
  Ex.spotdl_missing (spotdl_cmd Ex.spotypod "mix")
                    (world_at_spotdl Ex.spotypod "mix" [Ex.yesterday]
                                     Ex2.ready)
    = (inl (FileNotFoundError "spotdl"),
       world_at_spotdl Ex.spotypod "mix" [Ex.yesterday] Ex2.ready) /\
  exists w',
    download_playlist Ex.spotdl_missing Ex.spotypod "mix" [Ex.yesterday]
                      Ex2.ready
      = (inr Ex.playlist_dir, w') /\
    stdout w' =
      [ev_downloading "mix"; ev_output_directory Ex.playlist_dir;
       ev_running (spotdl_cmd Ex.spotypod "mix"); ev_spotdl_not_found] /\
    files w' (queries_file_of Ex.spotypod "mix") = None.
Proof.
  split; [reflexivity |].
  destruct (missing_tool_is_not_fatal Ex.spotdl_missing Ex.spotypod "mix"
              [Ex.yesterday] Ex2.ready (FileNotFoundError "spotdl")
              (world_at_spotdl Ex.spotypod "mix" [Ex.yesterday] Ex2.ready)
              eq_refl eq_refl)
    as [w' [Hrun [Hout [Hq _]]]].
  exists w'. split; [exact Hrun |]. split; [exact Hout | exact Hq].
Defined.

(** X12: when starting the tool raises an exception of another class,
    [download_playlist] lets it through at once: the exception is the result
    and the world is left as the call left it, so [queries.txt] is not
    removed. *)
Theorem other_tool_error_propagates (run : list string -> M CompletedProcess)
    (self : SpotyPod) (playlist_name : string)
    (playlist_items : list PlaylistItem) (w : World) (e : exn) (w2 : World) :
  run (spotdl_cmd self playlist_name)
      (world_at_spotdl self playlist_name playlist_items w) = (inl e, w2) ->
  exn_class e <> "FileNotFoundError" ->
  download_playlist run self playlist_name playlist_items w = (inl e, w2).
Proof.
  intros Hrun Hclass. rewrite download_playlist_run, Hrun.
  apply String.eqb_neq in Hclass. now rewrite Hclass.
Qed.

Lemma other_tool_error_propagates_witness :
  exists e w2,
    exn_class e = "PermissionError" /\
    download_playlist Ex2.spotdl_denied Ex.spotypod "mix" [Ex.yesterday]
                      Ex2.ready = (inl e, w2) /\
    files w2 (queries_file_of Ex.spotypod "mix")
      = Some ("The Beatles - Yesterday" ++ nl).
Proof.
  exists {| exn_class := "PermissionError"; exn_msg := "spotdl" |}.
  exists (world_at_spotdl Ex.spotypod "mix" [Ex.yesterday] Ex2.ready).
  split; [reflexivity |]. split; [| reflexivity].
  apply (other_tool_error_propagates Ex2.spotdl_denied Ex.spotypod "mix"
           [Ex.yesterday] Ex2.ready); [reflexivity | discriminate].
Defined.

(** X13: when the tool returns, whatever its exit status,
    [download_playlist] succeeds: it prints the captured error output only
    when the status is not zero, then the captured output, removes
    [queries.txt] and returns the playlist directory. *)
Theorem tool_exit_status_is_not_fatal (run : list string -> M CompletedProcess)
    (self : SpotyPod) (playlist_name : string)
    (playlist_items : list PlaylistItem) (w : World)
    (result : CompletedProcess) (w2 : World) :
  run (spotdl_cmd self playlist_name)
      (world_at_spotdl self playlist_name playlist_items w)
    = (inr result, w2) ->
  exists w',
    download_playlist run self playlist_name playlist_items w
      = (inr (Path.div (output_dir self) playlist_name), w') /\
    (returncode result <> 0%Z ->
     stdout w' = (stdout w2 ++ [ev_spotdl_stderr (proc_stderr result);
                                ev_spotdl_output (proc_stdout result)])%list) /\
    (returncode result = 0%Z ->
     stdout w' = (stdout w2 ++ [ev_spotdl_output (proc_stdout result)])%list) /\
    files w' (queries_file_of self playlist_name) = None /\
    exists_ w' (queries_file_of self playlist_name) = false.
Proof.
  intros Hrun. rewrite download_playlist_run, Hrun.
  destruct (unlink_ret_run (queries_file_of self playlist_name)
              (playlist_dir_of self playlist_name)
              (set_stdout w2 (stdout w2 ++ spotdl_report result)))
    as [w' [Hfin [Hq [Hex [_ [_ [Hout _]]]]]]].
  exists w'. split; [exact Hfin |].
  cbn [stdout set_stdout] in Hout. unfold spotdl_report in Hout.
  split; [| split; [| split; [exact Hq | exact Hex]]].
  - intros Hrc. apply Z.eqb_neq in Hrc. now rewrite Hrc in Hout.
  - intros Hrc. apply Z.eqb_eq in Hrc. now rewrite Hrc in Hout.
Qed.

Lemma tool_exit_status_is_not_fatal_witness :
  exists w',
    download_playlist Ex2.spotdl_failing Ex.spotypod "mix" [Ex.yesterday]
                      Ex2.ready = (inr Ex.playlist_dir, w') /\
    stdout w' =
      [ev_downloading "mix"; ev_output_directory Ex.playlist_dir;
       ev_running (spotdl_cmd Ex.spotypod "mix");
       ev_spotdl_stderr "no results"; ev_spotdl_output ""].
Proof.
  destruct (tool_exit_status_is_not_fatal Ex2.spotdl_failing Ex.spotypod "mix"
              [Ex.yesterday] Ex2.ready
              {| returncode := 1%Z; proc_stdout := "";
                 proc_stderr := "no results" |}
              (world_at_spotdl Ex.spotypod "mix" [Ex.yesterday] Ex2.ready)
              eq_refl)
    as [w' [Hrun [Hout _]]].
  exists w'. split; [exact Hrun |]. apply Hout. discriminate.
Defined.

(** ** The whole workflow *)

Lemma bind_inr {A B} (m : M A) (k : A -> M B) (w w1 : World) (a : A) :
  m w = (inr a, w1) -> bind m k w = k a w1.
Proof. intros H. unfold bind. now rewrite H. Qed.


Lemma read_exportify_csv_run (csv_path : Path.t) (w : World) (rows : list Row) :
  csv w csv_path = Some rows ->
  read_exportify_csv csv_path w
    = (inr (Path.stem csv_path, playlist_items_of rows), w).
Proof.
  intros H. unfold read_exportify_csv, bind, read_rows, ret. now rewrite H.
Qed.

(** [process_playlist] up to the choice between download and no download. *)
Lemma process_playlist_start (run : list string -> M CompletedProcess)
    (self : SpotyPod) (csv_path : Path.t) (download : bool) (w : World)
    (rows : list Row) :
  csv w csv_path = Some rows ->
  let playlist_name := Path.stem csv_path in
  let playlist_items := playlist_items_of rows in
  let w0 := set_stdout w
              (stdout w ++ [ev_processing csv_path;
                            ev_loaded playlist_name
                                      (List.length playlist_items)]) in
  process_playlist run self csv_path download w =
  bind (if download
        then download_playlist run self playlist_name playlist_items
        else
          found <- path_exists (Path.div (output_dir self) playlist_name) ;;
          if negb found
          then raise (ValueError ("Playlist directory not found: "
                        ++ Path.str (Path.div (output_dir self) playlist_name)))
          else ret (Path.div (output_dir self) playlist_name))
       (fun playlist_dir =>
          generate_m3u_playlist self playlist_name playlist_dir playlist_items)
       w0.
Proof.
  intros Hrows playlist_name playlist_items w0.
  unfold process_playlist, w0, playlist_name, playlist_items.
  cbv [bind print read_exportify_csv read_rows ret].
  cbn [csv stdout set_stdout fst snd]. rewrite Hrows.
  cbn [csv stdout set_stdout fst snd]. rewrite <- app_assoc.
  reflexivity.
Qed.

(** X14: without download, when the CSV file can be read and the playlist
    directory exists, [process_playlist] returns the location
    [<output>/<stem of the CSV>.m3u] and the document written there is the one
    of the tracks of the CSV against the [.mp3] files of the directory; the
    download tool plays no part in the result. *)
Theorem skip_download_reconciles_existing_files
    (run : list string -> M CompletedProcess) (self : SpotyPod)
    (csv_path : Path.t) (w : World) (rows : list Row) :
  csv w csv_path = Some rows ->
  exists_ w (Path.div (output_dir self) (Path.stem csv_path)) = true ->
  let playlist_dir := Path.div (output_dir self) (Path.stem csv_path) in
  let m3u_path := Path.div (output_dir self) (Path.stem csv_path ++ ".m3u") in
  (exists w',
      process_playlist run self csv_path false w = (inr m3u_path, w') /\
      files w' m3u_path
        = Some (document w (candidates w playlist_dir)
                         (playlist_items_of rows)) /\
      (forall p, p <> m3u_path -> files w' p = files w p)) /\
  (forall other : list string -> M CompletedProcess,
      process_playlist other self csv_path false w
        = process_playlist run self csv_path false w).
Proof.
  intros Hrows Hdir playlist_dir m3u_path. split; [| reflexivity].
  rewrite (process_playlist_start run self csv_path false w rows Hrows).
  cbv [bind path_exists]. cbn [exists_ set_stdout].
  unfold playlist_dir, m3u_path. rewrite Hdir. cbn [negb]. cbv [ret].
  match goal with
  | |- context [generate_m3u_playlist _ _ _ _ ?w0] =>
      destruct (generate_m3u_playlist_run self (Path.stem csv_path)
                  playlist_dir (playlist_items_of rows) w0)
        as [w' [Hrun [Hfile [_ [Hothers _]]]]]
  end.
  exists w'. split; [exact Hrun |]. split; [exact Hfile | exact Hothers].
Qed.

Lemma skip_download_reconciles_existing_files_witness :
  (csv Ex2.ready Ex.mix_csv <> None /\
   exists_ Ex2.ready Ex.playlist_dir = true) /\
  exists w',
    process_playlist Ex2.spotdl_denied Ex.spotypod Ex.mix_csv false Ex2.ready
      = (inr Ex.m3u, w') /\
    files w' Ex.m3u
      = Some (document Ex2.ready (candidates Ex2.ready Ex.playlist_dir)
                       [Ex.yesterday]).
Proof.
  split; [split; [discriminate | reflexivity] |].
  destruct (skip_download_reconciles_existing_files Ex2.spotdl_denied
              Ex.spotypod Ex.mix_csv Ex2.ready
              [[("Track Name", "Yesterday"); ("Artist Name(s)", "The Beatles");
                ("Album Name", "Help!")]] eq_refl eq_refl)
    as [[w' [Hrun [Hfile _]]] _].
  exists w'. split; [exact Hrun | exact Hfile].
Defined.

Lemma queries_file_neq_m3u (self : SpotyPod) (playlist_name : string) :
  queries_file_of self playlist_name <> m3u_path_of self playlist_name.
Proof.
  unfold queries_file_of, playlist_dir_of, m3u_path_of, Path.div. intros H.
  apply (f_equal (@List.length string)) in H.
  rewrite !length_app in H. cbn in H. lia.
Qed.

(** The workflow with download when the tool is absent. *)
Lemma process_playlist_without_tool (run : list string -> M CompletedProcess)
    (self : SpotyPod) (csv_path : Path.t) (w : World) (rows : list Row) :
  csv w csv_path = Some rows ->
  tool_absent run ->
  exists w',
    process_playlist run self csv_path true w
      = (inr (m3u_path_of self (Path.stem csv_path)), w') /\
    files w' (m3u_path_of self (Path.stem csv_path))
      = Some (document w
                (candidates w (playlist_dir_of self (Path.stem csv_path)))
                (playlist_items_of rows)) /\
    files w' (queries_file_of self (Path.stem csv_path)) = None /\
    In ev_spotdl_not_found (stdout w').
Proof.
  intros Hrows Habsent.
  rewrite (process_playlist_start run self csv_path true w rows Hrows).
  set (name := Path.stem csv_path). set (items := playlist_items_of rows).
  set (w0 := set_stdout w _).
  destruct (prepare_download_run self name items w0)
    as [_ [_ [_ [_ [_ [Hid3 [Hlist [Hcwd _]]]]]]]].
  set (w1 := world_at_spotdl self name items w0) in *.
  destruct (Habsent (spotdl_cmd self name) w1) as [e [Hcall Hclass]].
  destruct (unlink_ret_run (queries_file_of self name) (playlist_dir_of self name)
              (set_stdout w1 (stdout w1 ++ [ev_spotdl_not_found])))
    as [w3 [Hfin [Hq [_ [_ [_ [Hout3 [Hid3' [Hlist' [Hcwd' _]]]]]]]]]].
  assert (Hdl : download_playlist run self name items w0
                = (inr (playlist_dir_of self name), w3)).
  { rewrite download_playlist_run. fold w1. rewrite Hcall, Hclass.
    cbn [String.eqb Ascii.eqb Bool.eqb]. exact Hfin. }
  rewrite (bind_inr _ _ _ _ _ Hdl).
  destruct (generate_m3u_playlist_run self name (playlist_dir_of self name)
              items w3) as [w' [Hrun [Hfile [Hout [Hothers _]]]]].
  exists w'. split; [exact Hrun |].
  cbn [id3 listing cwd stdout set_stdout] in *.
  split; [| split].
  - rewrite Hfile.
    rewrite (candidates_env w w3 _ (eq_trans Hlist' Hlist)).
    now rewrite (document_env w w3 _ _ (eq_trans Hid3' Hid3)
                   (eq_trans Hcwd' Hcwd)).
  - rewrite (Hothers _ (queries_file_neq_m3u self name)). exact Hq.
  - rewrite Hout, Hout3. apply in_or_app. left. apply in_or_app. right.
    now left.
Qed.

(** X15: with download, when the tool is not installed, [process_playlist]
    still succeeds: it prints the hint to install the tool, leaves no
    [queries.txt] behind and writes the document of the tracks of the CSV
    against the [.mp3] files that are already in the playlist directory. *)
Theorem download_without_tool_still_reconciles
    (run : list string -> M CompletedProcess) (self : SpotyPod)
    (csv_path : Path.t) (w : World) (rows : list Row) :
  csv w csv_path = Some rows ->
  (forall cmd w0, exists e,
      run cmd w0 = (inl e, w0) /\ exn_class e = "FileNotFoundError") ->
  let playlist_dir := Path.div (output_dir self) (Path.stem csv_path) in
  let m3u_path := Path.div (output_dir self) (Path.stem csv_path ++ ".m3u") in
  exists w',
    process_playlist run self csv_path true w = (inr m3u_path, w') /\
    files w' m3u_path
      = Some (document w (candidates w playlist_dir) (playlist_items_of rows)) /\
    files w' (Path.div playlist_dir "queries.txt") = None /\
    In ev_spotdl_not_found (stdout w').
Proof.
  intros Hrows Habsent playlist_dir m3u_path.
  exact (process_playlist_without_tool run self csv_path w rows Hrows Habsent).
Qed.

Lemma download_without_tool_still_reconciles_witness :
  csv Ex2.ready Ex.mix_csv <> None /\
  exists w',
    process_playlist Ex.spotdl_missing Ex.spotypod Ex.mix_csv true Ex2.ready
      = (inr Ex.m3u, w') /\
    files w' Ex.m3u
      = Some (document Ex2.ready (candidates Ex2.ready Ex.playlist_dir)
                       [Ex.yesterday]) /\
    In ev_spotdl_not_found (stdout w').
Proof.
  split; [discriminate |].
  destruct (download_without_tool_still_reconciles Ex.spotdl_missing
              Ex.spotypod Ex.mix_csv Ex2.ready
              [[("Track Name", "Yesterday"); ("Artist Name(s)", "The Beatles");
                ("Album Name", "Help!")]] eq_refl)
    as [w' [Hrun [Hfile [_ Hout]]]].
  - intros cmd w0. exists (FileNotFoundError "spotdl"). split; reflexivity.
  - exists w'. split; [exact Hrun |]. split; [exact Hfile | exact Hout].
Defined.





(** ** Repeated tag reads *)

Lemma mismatch_events_empty_tags (item : PlaylistItem) (metadata : Metadata) :
  title metadata = "" -> tag_artist metadata = "" ->
  mismatch_events item metadata = [].
Proof.
  intros Ht Ha. unfold mismatch_events, title_differs, artist_differs.
  now rewrite Ht, Ha.
Qed.

Lemma item_events_unreadable_first (w : World) (file_path : Path.t)
    (rest : list Path.t) (e : exn) (playlist_items : list PlaylistItem) :
  tag_result w file_path = inl e ->
  flat_map (item_events w (file_path :: rest)) playlist_items
    = flat_map (fun _ => [ev_metadata_warning file_path e;
                          ev_metadata_warning file_path e]) playlist_items.
Proof.
  intros Hfail.
  assert (Htags : tags_of w file_path = empty_metadata)
    by (unfold tags_of; now rewrite Hfail).
  assert (Hwarn : tag_warnings w file_path = [ev_metadata_warning file_path e])
    by (unfold tag_warnings; now rewrite Hfail).
  apply flat_map_ext. intros item.
  assert (Hm : candidate_matches w item file_path = true).
  { unfold candidate_matches, is_match. rewrite Htags.
    destruct (empty_tags_branch item empty_metadata eq_refl eq_refl) as [T A].
    now rewrite T, A. }
  unfold item_events. rewrite scan_events_cons. unfold selected. cbn [find].
  rewrite Hm, Hwarn, Htags.
  now rewrite (mismatch_events_empty_tags item empty_metadata eq_refl eq_refl).
Qed.

(** X18: the tags of a matched file are read a second time before its entry
    is written.  When the tags of the first candidate cannot be read, the run
    prints the warning about that file twice for every expected track, and
    nothing else between the three opening lines and the closing line. *)
Theorem unreadable_first_file_warns_twice_per_track (self : SpotyPod)
    (playlist_name : string) (playlist_dir : Path.t)
    (playlist_items : list PlaylistItem) (w : World) (file_path : Path.t)
    (rest : list Path.t) (e : exn) :
  fst (glob_mp3 playlist_dir w) = inr (file_path :: rest) ->
  fst (read_tags file_path w) = inl e ->
  exists w',
    generate_m3u_playlist self playlist_name playlist_dir playlist_items w
      = (inr (m3u_path_of self playlist_name), w') /\
    stdout w' =
      (stdout w ++
       [ev_generating (m3u_path_of self playlist_name);
        ev_found (S (List.length rest));
        ev_expected (List.length playlist_items)] ++
       flat_map (fun _ => [ev_metadata_warning file_path e;
                           ev_metadata_warning file_path e]) playlist_items ++
       [ev_saved (m3u_path_of self playlist_name)])%list.
Proof.
  intros Hglob Hfail.
  assert (Hcand : candidates w playlist_dir = file_path :: rest).
  { cbn in Hglob. now injection Hglob. }
  rewrite read_tags_run in Hfail. cbn [fst] in Hfail.
  destruct (generate_m3u_playlist_run self playlist_name playlist_dir
              playlist_items w) as [w' [Hrun [_ [Hout _]]]].
  exists w'. split; [exact Hrun |].
  rewrite Hout. unfold generate_events. rewrite Hcand.
  now rewrite (item_events_unreadable_first w file_path rest e playlist_items
                 Hfail).
Qed.

Lemma unreadable_first_file_warns_twice_per_track_witness :
  (fst (glob_mp3 Ex.playlist_dir Ex.unreadable)
     = inr [Ex.track01; Ex.beatles_yesterday] /\
   fst (read_tags Ex.track01 Ex.unreadable) = inl Ex.no_header) /\
  exists w',
    generate_m3u_playlist Ex.spotypod "mix" Ex.playlist_dir
                          [Ex.yesterday; Ex.help] Ex.unreadable
      = (inr Ex.m3u, w') /\
    stdout w' =
      [ev_generating Ex.m3u; ev_found 2; ev_expected 2;
       ev_metadata_warning Ex.track01 Ex.no_header;
       ev_metadata_warning Ex.track01 Ex.no_header;
       ev_metadata_warning Ex.track01 Ex.no_header;
       ev_metadata_warning Ex.track01 Ex.no_header;
       ev_saved Ex.m3u].
Proof.
  split; [split; reflexivity |].
  apply (unreadable_first_file_warns_twice_per_track Ex.spotypod "mix"
           Ex.playlist_dir [Ex.yesterday; Ex.help] Ex.unreadable Ex.track01
           [Ex.beatles_yesterday] Ex.no_header eq_refl eq_refl).
Defined.
